(** * gorush: the APNs dispatch-and-retry engine (notify/notification_apns.go)

    A shallow embedding of [InitAPNSClient], [newApnsClient],
    [newApnsTokenClient], [GetIOSNotification], [getApnsClient] and
    [PushToIOS], and the properties of the retry controller, the client
    factory and the notification builder.

    Modelling conventions.
    - Go [int] and [int64] values are [Z]; the code only compares them and
      increments [retryCount], which stays below [maxRetry].
    - Go strings are [string] (sequences of bytes).
    - A Go [error] is its message; a nil-able pointer is an [option].
    - Package-level variables ([ApnsClient]) and everything the code does to
      the outside (logs, counters, provider calls, feedback calls) live in a
      [World] that every function threads through.
    - A run-time panic (nil dereference) is an outcome of its own, next to a
      returned value and a returned error.
    - The workers of one round are run one after the other, in the order of
      the token list; the slot pool [MaxConcurrentIOSPushes] only bounds how
      many of them overlap and is not part of the sequential model.
    - Third-party packages (certificate and token decoders, base64, the
      HTTP/2 transport configuration, the provider call, mapstructure) and
      the helpers of this repository that are not in the files at hand
      ([core.IsLocalQueue], [createLogPushEntry]) are fields of [Externals]. *)

From Stdlib Require Import ZArith List String Ascii Bool Lia QArith.
Import ListNotations.

Local Open Scope string_scope.
Local Open Scope Z_scope.

(** ** Outcomes and the world *)

Definition error := string.

Inductive result (A : Type) : Type :=
| Ok (a : A)
| Err (e : error)
| Panic (msg : string).

Arguments Ok {A} a.
Arguments Err {A} e.
Arguments Panic {A} msg.

Definition nil_dereference : string :=
  "invalid memory address or nil pointer dereference".

(** ** path/filepath.Ext

    [for i := len(path) - 1; i >= 0 && !os.IsPathSeparator(path[i]); i--]
    returns [path[i:]] at the first dot met from the end, and the empty
    string when a separator or the start of the path comes first. *)

Definition is_dot (c : ascii) : bool := Ascii.eqb c "."%char.
Definition IsPathSeparator (c : ascii) : bool := Ascii.eqb c "/"%char.

Fixpoint ext_scan (rev_path : list ascii) (suffix : string) : string :=
  match rev_path with
  | [] => ""
  | c :: rest =>
      if IsPathSeparator c then ""
      else if is_dot c then String c suffix
      else ext_scan rest (String c suffix)
  end.

Definition filepath_Ext (path : string) : string :=
  ext_scan (rev (list_ascii_of_string path)) "".

(** ** Configuration (config.ConfYaml, the sections the dispatch reads) *)

Record SectionIos : Type := {
  Enabled : bool;
  KeyPath : string;
  KeyBase64 : string;
  KeyType : string;
  Password : string;
  IosProduction : bool;
  MaxConcurrentPushes : Z;
  MaxRetry : Z;
  KeyID : string;
  TeamID : string
}.

Record SectionCore : Type := {
  Sync : bool;
  HTTPProxy : string;
  FeedbackURL : string;
  FeedbackTimeout : Z
}.

Record SectionQueue : Type := {
  Engine : string
}.

Record ConfYaml : Type := {
  Core : SectionCore;
  Ios : SectionIos;
  Queue : SectionQueue
}.

Definition set_Sync (cfg : ConfYaml) (b : bool) : ConfYaml :=
  {| Core := {| Sync := b;
                HTTPProxy := HTTPProxy (Core cfg);
                FeedbackURL := FeedbackURL (Core cfg);
                FeedbackTimeout := FeedbackTimeout (Core cfg) |};
     Ios := Ios cfg;
     Queue := Queue cfg |}.

(** ** The provider client (apns2.Client) *)

Inductive Host : Type := HostDevelopment | HostProduction.

(** [*http2.Transport] as built by [apns2.NewClient] / [NewTokenClient], or
    the proxying [*http.Transport] of [newApnsClient]; durations in seconds. *)
Inductive Transport : Type :=
| H2Transport (ReadIdleTimeout PingTimeout : Z)
| HTTPTransport (IdleConnTimeout DialTimeout KeepAlive : Z)
                (ReadIdleTimeout PingTimeout : Z).

Definition idleConnTimeout : Z := 90.
Definition tlsDialTimeout : Z := 20.
Definition tcpKeepAlive : Z := 60.

Section Client.

Variables Certificate PrivateKey : Type.

(** token.Token *)
Record Token : Type := {
  AuthKey : option PrivateKey;
  TokenKeyID : string;
  TokenTeamID : string
}.

Inductive Credential : Type :=
| CertCredential (c : Certificate)
| TokenCredential (t : Token).

Record Client : Type := {
  ClientHost : Host;
  ClientCredential : Credential;
  ClientTransport : Transport
}.

(** [apns2.NewClient] and [apns2.NewTokenClient]: development host, an
    HTTP/2 transport without health checks. *)
Definition NewClient (c : Certificate) : Client :=
  {| ClientHost := HostDevelopment;
     ClientCredential := CertCredential c;
     ClientTransport := H2Transport 0 0 |}.

Definition NewTokenClient (t : Token) : Client :=
  {| ClientHost := HostDevelopment;
     ClientCredential := TokenCredential t;
     ClientTransport := H2Transport 0 0 |}.

Definition set_Host (c : Client) (h : Host) : Client :=
  {| ClientHost := h;
     ClientCredential := ClientCredential c;
     ClientTransport := ClientTransport c |}.

Definition set_Transport (c : Client) (t : Transport) : Client :=
  {| ClientHost := ClientHost c;
     ClientCredential := ClientCredential c;
     ClientTransport := t |}.

(** [(c *Client) Production()] and [Development()] write the host through
    the pointer and return it. *)
Definition Production (c : Client) : Client := set_Host c HostProduction.
Definition Development (c : Client) : Client := set_Host c HostDevelopment.

(** [configureHTTP2ConnHealthCheck] *)
Definition configureHTTP2ConnHealthCheck (t : Transport) : Transport :=
  match t with
  | H2Transport _ _ => H2Transport 1 1
  | HTTPTransport i d k _ _ => HTTPTransport i d k 1 1
  end.

End Client.

Arguments AuthKey {PrivateKey} t.
Arguments TokenKeyID {PrivateKey} t.
Arguments TokenTeamID {PrivateKey} t.
Arguments CertCredential {Certificate PrivateKey} c.
Arguments TokenCredential {Certificate PrivateKey} t.
Arguments ClientHost {Certificate PrivateKey} c.
Arguments ClientCredential {Certificate PrivateKey} c.
Arguments ClientTransport {Certificate PrivateKey} c.
Arguments NewClient {Certificate PrivateKey} c.
Arguments NewTokenClient {Certificate PrivateKey} t.
Arguments set_Host {Certificate PrivateKey} c h.
Arguments set_Transport {Certificate PrivateKey} c t.
Arguments Production {Certificate PrivateKey} c.
Arguments Development {Certificate PrivateKey} c.

(** ** The push request (PushNotification) *)

(** A decoded JSON value, the dynamic content of an [interface{}]. *)
#[local] Set Warnings "-register-all".
Inductive Value : Type :=
| VNull
| VBool (b : bool)
| VNumber (q : Q)
| VString (s : string)
| VArray (l : list Value)
| VObject (m : list (string * Value)).
#[local] Set Warnings "register-all".

(** [type Sound struct { Critical int; Name string; Volume float32 }] *)
Record Sound : Type := {
  Critical : Z;
  Name : string;
  Volume : Q
}.

(** The run-time shapes of the [Sound interface{}] field. *)
Inductive SoundField : Type :=
| SoundNil
| SoundMap (m : list (string * Value))
| SoundString (s : string)
| SoundStruct (s : Sound)
| SoundOther (v : Value).

Record Alert : Type := {
  AlertAction : string;
  AlertActionLocKey : string;
  AlertBody : string;
  AlertLaunchImage : string;
  AlertLocArgs : list string;
  AlertLocKey : string;
  AlertTitle : string;
  AlertSubtitle : string;
  AlertTitleLocArgs : list string;
  AlertTitleLocKey : string;
  AlertSummaryArg : string;
  AlertSummaryArgCount : Z
}.

Record PushNotification : Type := {
  Cfg : ConfYaml;
  Tokens : list string;
  Message : string;
  Title : string;
  Priority : string;
  ContentAvailable : bool;
  MutableContent : bool;
  ReqSound : SoundField;
  Data : list (string * Value);
  Retry : Z;
  Expiration : option Z;
  ApnsID : string;
  CollapseID : string;
  Topic : string;
  PushType : string;
  Badge : option Z;
  Category : string;
  ThreadID : string;
  URLArgs : list string;
  ReqAlert : Alert;
  ReqProduction : bool;
  Development_ : bool;
  SoundName : string;
  SoundVolume : Q;
  ApnsKeyPath : string;
  ApnsKeyBase64 : string;
  ApnsKeyType : string;
  ApnsPassword : string;
  ApnsKeyID : string;
  ApnsTeamID : string
}.

Definition set_Tokens (req : PushNotification) (ts : list string)
  : PushNotification :=
  Build_PushNotification (Cfg req) ts (Message req) (Title req)
    (Priority req) (ContentAvailable req) (MutableContent req) (ReqSound req)
    (Data req) (Retry req) (Expiration req) (ApnsID req) (CollapseID req)
    (Topic req) (PushType req) (Badge req) (Category req) (ThreadID req)
    (URLArgs req) (ReqAlert req) (ReqProduction req) (Development_ req)
    (SoundName req) (SoundVolume req) (ApnsKeyPath req) (ApnsKeyBase64 req)
    (ApnsKeyType req) (ApnsPassword req) (ApnsKeyID req) (ApnsTeamID req).

Definition set_Cfg (req : PushNotification) (cfg : ConfYaml)
  : PushNotification :=
  Build_PushNotification cfg (Tokens req) (Message req) (Title req)
    (Priority req) (ContentAvailable req) (MutableContent req) (ReqSound req)
    (Data req) (Retry req) (Expiration req) (ApnsID req) (CollapseID req)
    (Topic req) (PushType req) (Badge req) (Category req) (ThreadID req)
    (URLArgs req) (ReqAlert req) (ReqProduction req) (Development_ req)
    (SoundName req) (SoundVolume req) (ApnsKeyPath req) (ApnsKeyBase64 req)
    (ApnsKeyType req) (ApnsPassword req) (ApnsKeyID req) (ApnsTeamID req).



Definition set_Retry (req : PushNotification) (v : Z)
  : PushNotification :=
  Build_PushNotification (Cfg req) (Tokens req) (Message req) (Title req)
    (Priority req) (ContentAvailable req) (MutableContent req) (ReqSound req)
    (Data req) v (Expiration req) (ApnsID req) (CollapseID req) (Topic req)
    (PushType req) (Badge req) (Category req) (ThreadID req) (URLArgs req)
    (ReqAlert req) (ReqProduction req) (Development_ req) (SoundName req)
    (SoundVolume req) (ApnsKeyPath req) (ApnsKeyBase64 req) (ApnsKeyType req)
    (ApnsPassword req) (ApnsKeyID req) (ApnsTeamID req).


(** ** The payload builder (apns2/payload) and apns2.Notification

    The builder keeps the [aps] dictionary and the custom keys; each method
    below is the builder method of the same name. The [aps] dictionary and
    the custom keys are kept apart. *)

(** The payload's own alert dictionary. *)
Record alert : Type := {
  action : string;
  actionLocKey : string;
  body : string;
  launchImage : string;
  locArgs : list string;
  locKey : string;
  title : string;
  subtitle : string;
  titleLocArgs : list string;
  titleLocKey : string;
  summaryArg : string;
  summaryArgCount : Z
}.

Definition empty_alert : alert :=
  Build_alert "" "" "" "" [] "" "" "" [] "" "" 0.

(** [aps.Alert interface{}]: unset, a plain string, or the dictionary. *)
Inductive AlertValue : Type :=
| AlertUnset
| AlertText (s : string)
| AlertDict (d : alert).

(** [aps.Sound interface{}]: unset, a string, a [notify.Sound] (decoded from
    a mapping or passed pre-built), or the builder's own sound dictionary. *)
Inductive SoundValue : Type :=
| SoundUnset
| SoundText (s : string)
| SoundObject (s : Sound)
| SoundBuilder (critical : Z) (name : string) (volume : Q).

Record aps : Type := {
  apsAlert : AlertValue;
  apsBadge : option Z;
  apsCategory : string;
  apsContentAvailable : bool;
  apsMutableContent : bool;
  apsSound : SoundValue;
  apsThreadID : string;
  apsURLArgs : list string
}.

Record Payload : Type := {
  content_aps : aps;
  content_custom : list (string * Value)
}.

Definition NewPayload : Payload :=
  {| content_aps := Build_aps AlertUnset None "" false false SoundUnset "" [];
     content_custom := [] |}.

Definition with_aps (p : Payload) (f : aps -> aps) : Payload :=
  {| content_aps := f (content_aps p); content_custom := content_custom p |}.

Definition aps_set_Alert (v : AlertValue) (a : aps) : aps :=
  Build_aps v (apsBadge a) (apsCategory a) (apsContentAvailable a)
    (apsMutableContent a) (apsSound a) (apsThreadID a) (apsURLArgs a).
Definition aps_set_Badge (v : option Z) (a : aps) : aps :=
  Build_aps (apsAlert a) v (apsCategory a) (apsContentAvailable a)
    (apsMutableContent a) (apsSound a) (apsThreadID a) (apsURLArgs a).
Definition aps_set_Category (v : string) (a : aps) : aps :=
  Build_aps (apsAlert a) (apsBadge a) v (apsContentAvailable a)
    (apsMutableContent a) (apsSound a) (apsThreadID a) (apsURLArgs a).
Definition aps_set_ContentAvailable (v : bool) (a : aps) : aps :=
  Build_aps (apsAlert a) (apsBadge a) (apsCategory a) v
    (apsMutableContent a) (apsSound a) (apsThreadID a) (apsURLArgs a).
Definition aps_set_MutableContent (v : bool) (a : aps) : aps :=
  Build_aps (apsAlert a) (apsBadge a) (apsCategory a) (apsContentAvailable a)
    v (apsSound a) (apsThreadID a) (apsURLArgs a).
Definition aps_set_Sound (v : SoundValue) (a : aps) : aps :=
  Build_aps (apsAlert a) (apsBadge a) (apsCategory a) (apsContentAvailable a)
    (apsMutableContent a) v (apsThreadID a) (apsURLArgs a).
Definition aps_set_ThreadID (v : string) (a : aps) : aps :=
  Build_aps (apsAlert a) (apsBadge a) (apsCategory a) (apsContentAvailable a)
    (apsMutableContent a) (apsSound a) v (apsURLArgs a).
Definition aps_set_URLArgs (v : list string) (a : aps) : aps :=
  Build_aps (apsAlert a) (apsBadge a) (apsCategory a) (apsContentAvailable a)
    (apsMutableContent a) (apsSound a) (apsThreadID a) v.

(** [(a *aps) alert()]: the dictionary, created empty when the alert is not
    one yet. *)
Definition aps_alert (a : aps) : alert :=
  match apsAlert a with
  | AlertDict d => d
  | _ => empty_alert
  end.

(** [(a *aps) sound()]: the builder's dictionary, created as
    [{Critical: 1, Name: "default", Volume: 1.0}] when the sound is not one. *)
Definition aps_sound (a : aps) : Z * string * Q :=
  match apsSound a with
  | SoundBuilder c n v => (c, n, v)
  | _ => (1, "default", 1%Q)
  end.

Definition with_alert (p : Payload) (f : alert -> alert) : Payload :=
  with_aps p (fun a => aps_set_Alert (AlertDict (f (aps_alert a))) a).

Definition payload_Alert (p : Payload) (s : string) : Payload :=
  with_aps p (aps_set_Alert (AlertText s)).
Definition payload_Badge (p : Payload) (b : Z) : Payload :=
  with_aps p (aps_set_Badge (Some b)).
Definition payload_MutableContent (p : Payload) : Payload :=
  with_aps p (aps_set_MutableContent true).
Definition payload_ContentAvailable (p : Payload) : Payload :=
  with_aps p (aps_set_ContentAvailable true).
Definition payload_Sound (p : Payload) (s : SoundValue) : Payload :=
  with_aps p (aps_set_Sound s).
Definition payload_SoundName (p : Payload) (n : string) : Payload :=
  with_aps p (fun a =>
    let '(c, _, v) := aps_sound a in aps_set_Sound (SoundBuilder c n v) a).
Definition payload_SoundVolume (p : Payload) (v : Q) : Payload :=
  with_aps p (fun a =>
    let '(c, n, _) := aps_sound a in aps_set_Sound (SoundBuilder c n v) a).
Definition payload_URLArgs (p : Payload) (l : list string) : Payload :=
  with_aps p (aps_set_URLArgs l).
Definition payload_ThreadID (p : Payload) (s : string) : Payload :=
  with_aps p (aps_set_ThreadID s).
Definition payload_Category (p : Payload) (s : string) : Payload :=
  with_aps p (aps_set_Category s).

(** [content[key] = val] *)
Fixpoint map_set (m : list (string * Value)) (k : string) (v : Value)
  : list (string * Value) :=
  match m with
  | [] => [(k, v)]
  | (k', v') :: rest =>
      if String.eqb k k' then (k, v) :: rest else (k', v') :: map_set rest k v
  end.

Definition payload_Custom (p : Payload) (k : string) (v : Value) : Payload :=
  {| content_aps := content_aps p;
     content_custom := map_set (content_custom p) k v |}.

(** Field writes on the alert dictionary. *)
Definition alert_set_action (v : string) (d : alert) : alert :=
  Build_alert v (actionLocKey d) (body d) (launchImage d) (locArgs d)
    (locKey d) (title d) (subtitle d) (titleLocArgs d) (titleLocKey d)
    (summaryArg d) (summaryArgCount d).
Definition alert_set_actionLocKey (v : string) (d : alert) : alert :=
  Build_alert (action d) v (body d) (launchImage d) (locArgs d) (locKey d)
    (title d) (subtitle d) (titleLocArgs d) (titleLocKey d) (summaryArg d)
    (summaryArgCount d).
Definition alert_set_body (v : string) (d : alert) : alert :=
  Build_alert (action d) (actionLocKey d) v (launchImage d) (locArgs d)
    (locKey d) (title d) (subtitle d) (titleLocArgs d) (titleLocKey d)
    (summaryArg d) (summaryArgCount d).
Definition alert_set_launchImage (v : string) (d : alert) : alert :=
  Build_alert (action d) (actionLocKey d) (body d) v (locArgs d) (locKey d)
    (title d) (subtitle d) (titleLocArgs d) (titleLocKey d) (summaryArg d)
    (summaryArgCount d).
Definition alert_set_locArgs (v : list string) (d : alert) : alert :=
  Build_alert (action d) (actionLocKey d) (body d) (launchImage d) v
    (locKey d) (title d) (subtitle d) (titleLocArgs d) (titleLocKey d)
    (summaryArg d) (summaryArgCount d).
Definition alert_set_locKey (v : string) (d : alert) : alert :=
  Build_alert (action d) (actionLocKey d) (body d) (launchImage d)
    (locArgs d) v (title d) (subtitle d) (titleLocArgs d) (titleLocKey d)
    (summaryArg d) (summaryArgCount d).
Definition alert_set_title (v : string) (d : alert) : alert :=
  Build_alert (action d) (actionLocKey d) (body d) (launchImage d)
    (locArgs d) (locKey d) v (subtitle d) (titleLocArgs d) (titleLocKey d)
    (summaryArg d) (summaryArgCount d).
Definition alert_set_subtitle (v : string) (d : alert) : alert :=
  Build_alert (action d) (actionLocKey d) (body d) (launchImage d)
    (locArgs d) (locKey d) (title d) v (titleLocArgs d) (titleLocKey d)
    (summaryArg d) (summaryArgCount d).
Definition alert_set_titleLocArgs (v : list string) (d : alert) : alert :=
  Build_alert (action d) (actionLocKey d) (body d) (launchImage d)
    (locArgs d) (locKey d) (title d) (subtitle d) v (titleLocKey d) (summaryArg d)
    (summaryArgCount d).
Definition alert_set_titleLocKey (v : string) (d : alert) : alert :=
  Build_alert (action d) (actionLocKey d) (body d) (launchImage d)
    (locArgs d) (locKey d) (title d) (subtitle d) (titleLocArgs d) v (summaryArg d)
    (summaryArgCount d).
Definition alert_set_summaryArg (v : string) (d : alert) : alert :=
  Build_alert (action d) (actionLocKey d) (body d) (launchImage d)
    (locArgs d) (locKey d) (title d) (subtitle d) (titleLocArgs d) (titleLocKey d) v
    (summaryArgCount d).
Definition alert_set_summaryArgCount (v : Z) (d : alert) : alert :=
  Build_alert (action d) (actionLocKey d) (body d) (launchImage d)
    (locArgs d) (locKey d) (title d) (subtitle d) (titleLocArgs d) (titleLocKey d)
    (summaryArg d) v.

(** [p.aps().alert().Field = v] for each alert method of the builder. *)
Definition payload_AlertTitle (p : Payload) (v : string) : Payload :=
  with_alert p (alert_set_title v).
Definition payload_AlertBody (p : Payload) (v : string) : Payload :=
  with_alert p (alert_set_body v).
Definition payload_AlertSubtitle (p : Payload) (v : string) : Payload :=
  with_alert p (alert_set_subtitle v).
Definition payload_AlertTitleLocKey (p : Payload) (v : string) : Payload :=
  with_alert p (alert_set_titleLocKey v).
Definition payload_AlertLocArgs (p : Payload) (v : list string) : Payload :=
  with_alert p (alert_set_locArgs v).
Definition payload_AlertTitleLocArgs (p : Payload) (v : list string) : Payload :=
  with_alert p (alert_set_titleLocArgs v).
Definition payload_AlertLaunchImage (p : Payload) (v : string) : Payload :=
  with_alert p (alert_set_launchImage v).
Definition payload_AlertLocKey (p : Payload) (v : string) : Payload :=
  with_alert p (alert_set_locKey v).
Definition payload_AlertAction (p : Payload) (v : string) : Payload :=
  with_alert p (alert_set_action v).
Definition payload_AlertActionLocKey (p : Payload) (v : string) : Payload :=
  with_alert p (alert_set_actionLocKey v).
Definition payload_AlertSummaryArg (p : Payload) (v : string) : Payload :=
  with_alert p (alert_set_summaryArg v).
Definition payload_AlertSummaryArgCount (p : Payload) (v : Z) : Payload :=
  with_alert p (alert_set_summaryArgCount v).

(** [len(s) > 0] on strings and slices *)
Definition nonempty (s : string) : bool := negb (String.eqb s "").
Definition nonempty_list {A} (l : list A) : bool :=
  match l with [] => false | _ => true end.

Definition when (b : bool) (f : Payload -> Payload) (p : Payload) : Payload :=
  if b then f p else p.

(** [iosAlertDictionary] *)
Definition iosAlertDictionary (p : Payload) (req : PushNotification)
  : Payload :=
  let p := when (nonempty (Title req))
             (fun p => payload_AlertTitle p (Title req)) p in
  let p := when (nonempty (Message req) && nonempty (Title req))
             (fun p => payload_AlertBody p (Message req)) p in
  let p := when (nonempty (AlertTitle (ReqAlert req)))
             (fun p => payload_AlertTitle p (AlertTitle (ReqAlert req))) p in
  let p := when (nonempty (AlertSubtitle (ReqAlert req)))
             (fun p => payload_AlertSubtitle p (AlertSubtitle (ReqAlert req))) p in
  let p := when (nonempty (AlertTitleLocKey (ReqAlert req)))
             (fun p => payload_AlertTitleLocKey p
                         (AlertTitleLocKey (ReqAlert req))) p in
  let p := when (nonempty_list (AlertLocArgs (ReqAlert req)))
             (fun p => payload_AlertLocArgs p (AlertLocArgs (ReqAlert req))) p in
  let p := when (nonempty_list (AlertTitleLocArgs (ReqAlert req)))
             (fun p => payload_AlertTitleLocArgs p
                         (AlertTitleLocArgs (ReqAlert req))) p in
  let p := when (nonempty (AlertBody (ReqAlert req)))
             (fun p => payload_AlertBody p (AlertBody (ReqAlert req))) p in
  let p := when (nonempty (AlertLaunchImage (ReqAlert req)))
             (fun p => payload_AlertLaunchImage p
                         (AlertLaunchImage (ReqAlert req))) p in
  let p := when (nonempty (AlertLocKey (ReqAlert req)))
             (fun p => payload_AlertLocKey p (AlertLocKey (ReqAlert req))) p in
  let p := when (nonempty (AlertAction (ReqAlert req)))
             (fun p => payload_AlertAction p (AlertAction (ReqAlert req))) p in
  let p := when (nonempty (AlertActionLocKey (ReqAlert req)))
             (fun p => payload_AlertActionLocKey p
                         (AlertActionLocKey (ReqAlert req))) p in
  let p := when (nonempty (Category req))
             (fun p => payload_Category p (Category req)) p in
  let p := when (nonempty (AlertSummaryArg (ReqAlert req)))
             (fun p => payload_AlertSummaryArg p
                         (AlertSummaryArg (ReqAlert req))) p in
  let p := when (0 <? AlertSummaryArgCount (ReqAlert req))
             (fun p => payload_AlertSummaryArgCount p
                         (AlertSummaryArgCount (ReqAlert req))) p in
  p.

(** apns2.Notification; [Expiration] is the epoch second of the timestamp
    ([None] is the zero time), [NPriority] is 0 when unset. *)
Record Notification : Type := {
  NApnsID : string;
  NCollapseID : string;
  DeviceToken : string;
  NTopic : string;
  NExpiration : option Z;
  NPriority : Z;
  NPayload : Payload;
  NPushType : string
}.

Definition PriorityLow : Z := 5.
Definition PriorityHigh : Z := 10.

Definition set_DeviceToken (n : Notification) (t : string) : Notification :=
  Build_Notification (NApnsID n) (NCollapseID n) t (NTopic n)
    (NExpiration n) (NPriority n) (NPayload n) (NPushType n).

Section Builder.

(** [mapstructure.Decode(input, &result)]: the [Sound] left in [result],
    which starts as the zero [Sound]; the decoding error is dropped. *)
Variable mapstructure_Decode : list (string * Value) -> Sound -> Sound.

Definition zero_Sound : Sound := {| Critical := 0; Name := ""; Volume := 0%Q |}.

(** The type switch on [req.Sound]. *)
Definition apply_Sound (p : Payload) (s : SoundField) : Payload :=
  match s with
  | SoundMap m => payload_Sound p (SoundObject (mapstructure_Decode m zero_Sound))
  | SoundString str => payload_Sound p (SoundText str)
  | SoundStruct snd => payload_Sound p (SoundObject snd)
  | SoundNil | SoundOther _ => p
  end.

(** [GetIOSNotification] *)
Definition GetIOSNotification (req : PushNotification) : Notification :=
  let priority :=
    if nonempty (Priority req) then
      if String.eqb (Priority req) "normal" then PriorityLow
      else if String.eqb (Priority req) "high" then PriorityHigh
      else 0
    else 0 in
  let pushType := if nonempty (PushType req) then PushType req else "" in
  let p := NewPayload in
  let p := when (nonempty (Message req) && String.eqb (Title req) "")
             (fun p => payload_Alert p (Message req)) p in
  let p := match Badge req with
           | Some b => if 0 <=? b then payload_Badge p b else p
           | None => p
           end in
  let p := when (MutableContent req) payload_MutableContent p in
  let p := apply_Sound p (ReqSound req) in
  let p := when (nonempty (SoundName req))
             (fun p => payload_SoundName p (SoundName req)) p in
  let p := when (negb (Qle_bool (SoundVolume req) 0))
             (fun p => payload_SoundVolume p (SoundVolume req)) p in
  let p := when (ContentAvailable req) payload_ContentAvailable p in
  let p := when (nonempty_list (URLArgs req))
             (fun p => payload_URLArgs p (URLArgs req)) p in
  let p := when (nonempty (ThreadID req))
             (fun p => payload_ThreadID p (ThreadID req)) p in
  let p := fold_left (fun p kv => payload_Custom p (fst kv) (snd kv))
             (Data req) p in
  let p := iosAlertDictionary p req in
  {| NApnsID := ApnsID req;
     NCollapseID := CollapseID req;
     DeviceToken := "";
     NTopic := Topic req;
     NExpiration := Expiration req;
     NPriority := priority;
     NPayload := p;
     NPushType := pushType |}.

End Builder.

(** ** External collaborators *)

(** apns2.Response; [Sent] is [StatusCode == http.StatusOK]. *)
Record Response : Type := {
  StatusCode : Z;
  Reason : string
}.

Definition StatusOK : Z := 200.
Definition StatusInternalServerError : Z := 500.

Definition Sent (r : Response) : bool := StatusCode r =? StatusOK.

(** core.SucceededPush and core.FailedPush *)
Inductive PushStatus : Type := SucceededPush | FailedPush.

Record Externals : Type := {
  Certificate : Type;
  PrivateKey : Type;
  (** the zero [tls.Certificate] *)
  zero_Certificate : Certificate;
  (** certificate.FromP12File, FromPemFile (path, password) *)
  FromP12File : string -> string -> Certificate + error;
  FromPemFile : string -> string -> Certificate + error;
  (** token.AuthKeyFromFile *)
  AuthKeyFromFile : string -> PrivateKey + error;
  (** base64.StdEncoding.DecodeString *)
  DecodeString : string -> string + error;
  (** certificate.FromP12Bytes, FromPemBytes (bytes, password) *)
  FromP12Bytes : string -> string -> Certificate + error;
  FromPemBytes : string -> string -> Certificate + error;
  (** token.AuthKeyFromBytes *)
  AuthKeyFromBytes : string -> PrivateKey + error;
  (** http2.ConfigureTransports on the proxying transport: [None] when it
      succeeds *)
  ConfigureTransports : Transport -> option error;
  (** the provider: [client.Push(&notification)] returns a response
      pointer and an error, either of which may be nil *)
  ProviderState : Type;
  Push : ProviderState -> Client Certificate PrivateKey -> Notification ->
         option Response * option error * ProviderState;
  (** core.IsLocalQueue(core.Queue(engine)) *)
  IsLocalQueue : string -> bool;
  (** logx.LogPushEntry and createLogPushEntry(cfg, status, token, req, err) *)
  LogPushEntry : Type;
  createLogPushEntry : ConfYaml -> PushStatus -> string -> PushNotification ->
                       option error -> LogPushEntry;
  (** mapstructure.Decode into a [Sound] *)
  mapstructure_Decode : list (string * Value) -> Sound -> Sound
}.

(** ** The engine *)

Section Engine.

Variable E : Externals.

Definition ApnsClientT : Type := Client (Certificate E) (PrivateKey E).

(** The package-level [ApnsClient] pointer, the provider, the loggers
    [logx.LogAccess] and [logx.LogError], the entries written by [logPush],
    the request-scoped log buffer filled by [req.AddLog], the feedback calls
    started, and how often [status.StatStorage.AddIosSuccess(1)] and
    [AddIosError(1)] were called. *)
Record World : Type := {
  ApnsClient : option ApnsClientT;
  provider : ProviderState E;
  LogAccess : list string;
  LogError : list string;
  PushLog : list (LogPushEntry E);
  RequestLog : list (LogPushEntry E);
  FeedbackCalls : list (LogPushEntry E * string * Z);
  IosSuccess : Z;
  IosError : Z
}.

Definition set_ApnsClient (c : option ApnsClientT) (w : World) : World :=
  Build_World c (provider w) (LogAccess w) (LogError w) (PushLog w)
    (RequestLog w) (FeedbackCalls w) (IosSuccess w) (IosError w).
Definition set_provider (p : ProviderState E) (w : World) : World :=
  Build_World (ApnsClient w) p (LogAccess w) (LogError w) (PushLog w)
    (RequestLog w) (FeedbackCalls w) (IosSuccess w) (IosError w).
Definition LogAccess_Debug (msg : string) (w : World) : World :=
  Build_World (ApnsClient w) (provider w) (LogAccess w ++ [msg]) (LogError w)
    (PushLog w) (RequestLog w) (FeedbackCalls w) (IosSuccess w) (IosError w).
Definition LogError_Error (msg : string) (w : World) : World :=
  Build_World (ApnsClient w) (provider w) (LogAccess w) (LogError w ++ [msg])
    (PushLog w) (RequestLog w) (FeedbackCalls w) (IosSuccess w) (IosError w).
Definition AddIosSuccess (n : Z) (w : World) : World :=
  Build_World (ApnsClient w) (provider w) (LogAccess w) (LogError w)
    (PushLog w) (RequestLog w) (FeedbackCalls w) (IosSuccess w + n)
    (IosError w).
Definition AddIosError (n : Z) (w : World) : World :=
  Build_World (ApnsClient w) (provider w) (LogAccess w) (LogError w)
    (PushLog w) (RequestLog w) (FeedbackCalls w) (IosSuccess w)
    (IosError w + n).

(** Modelled from the spec: [logPush] is not in the files at hand; it
    writes the entry built by [createLogPushEntry] to the push log. *)
Definition logPush (cfg : ConfYaml) (st : PushStatus) (token : string)
    (req : PushNotification) (err : option error) (w : World) : World :=
  Build_World (ApnsClient w) (provider w) (LogAccess w) (LogError w)
    (PushLog w ++ [createLogPushEntry E cfg st token req err])
    (RequestLog w) (FeedbackCalls w) (IosSuccess w) (IosError w).

(** Modelled from the spec: [PushNotification.AddLog] is not in the files
    at hand; it appends the entry to the request-scoped log buffer that is
    returned to the synchronous caller. *)
Definition AddLog (entry : LogPushEntry E) (w : World) : World :=
  Build_World (ApnsClient w) (provider w) (LogAccess w) (LogError w)
    (PushLog w) (RequestLog w ++ [entry]) (FeedbackCalls w) (IosSuccess w)
    (IosError w).

(** Modelled from the spec: [DispatchFeedback] is not in the files at hand;
    [go func(...) { DispatchFeedback(log, url, timeout) ... }] starts one
    fire-and-forget call, recorded with its arguments. *)
Definition go_DispatchFeedback (entry : LogPushEntry E) (url : string)
    (timeout : Z) (w : World) : World :=
  Build_World (ApnsClient w) (provider w) (LogAccess w) (LogError w)
    (PushLog w) (RequestLog w) (FeedbackCalls w ++ [(entry, url, timeout)])
    (IosSuccess w) (IosError w).

(** A computation: it reads and writes the world and returns a value, an
    error, or panics. *)
Definition M (A : Type) : Type := World -> result A * World.

Definition ret {A} (a : A) : M A := fun w => (Ok a, w).
Definition fail {A} (e : error) : M A := fun w => (Err e, w).
Definition panic {A} (msg : string) : M A := fun w => (Panic msg, w).
Definition bind {A B} (m : M A) (k : A -> M B) : M B :=
  fun w =>
    match m w with
    | (Ok a, w') => k a w'
    | (Err e, w') => (Err e, w')
    | (Panic msg, w') => (Panic msg, w')
    end.
Definition effect (f : World -> World) : M unit := fun w => (Ok tt, f w).
Definition read {A} (f : World -> A) : M A := fun w => (Ok (f w), w).

Notation "x <- m ;; k" := (bind m (fun x => k))
  (at level 61, m at next level, right associativity).
Notation "m ;;; k" := (bind m (fun _ => k))
  (at level 61, right associativity).

(** [if s == "" { s = dflt }] *)
Definition or_default (s dflt : string) : string :=
  if String.eqb s "" then dflt else s.

(** [newApnsClient]: the client pointer and the error it returns. *)
Definition newApnsClient (cfg : ConfYaml) (certificate : Certificate E)
  : option ApnsClientT * option error :=
  let client :=
    if IosProduction (Ios cfg) then Production (NewClient certificate)
    else Development (NewClient certificate) in
  if String.eqb (HTTPProxy (Core cfg)) "" then (Some client, None)
  else
    let transport :=
      HTTPTransport idleConnTimeout tlsDialTimeout tcpKeepAlive 0 0 in
    match ConfigureTransports E transport with
    | Some err => (None, Some err)
    | None =>
        (Some (set_Transport client (configureHTTP2ConnHealthCheck transport)),
         None)
    end.

(** [newApnsTokenClient] *)
Definition newApnsTokenClient (cfg : ConfYaml) (token : Token (PrivateKey E))
  : option ApnsClientT * option error :=
  let client :=
    if IosProduction (Ios cfg) then Production (NewTokenClient token)
    else Development (NewTokenClient token) in
  if String.eqb (HTTPProxy (Core cfg)) "" then (Some client, None)
  else
    let transport :=
      HTTPTransport idleConnTimeout tlsDialTimeout tcpKeepAlive 0 0 in
    match ConfigureTransports E transport with
    | Some err => (None, Some err)
    | None =>
        (Some (set_Transport client (configureHTTP2ConnHealthCheck transport)),
         None)
    end.

(** The [switch ext] over a key file: [certificateKey] and [authKey] after
    it, or the error. *)
Definition switch_key_file (ext key_file_path key_password : string)
  : Certificate E * option (PrivateKey E) + error :=
  if String.eqb ext ".p12" then
    match FromP12File E key_file_path key_password with
    | inl c => inl (c, None)
    | inr err => inr err
    end
  else if String.eqb ext ".pem" then
    match FromPemFile E key_file_path key_password with
    | inl c => inl (c, None)
    | inr err => inr err
    end
  else if String.eqb ext ".p8" then
    match AuthKeyFromFile E key_file_path with
    | inl k => inl (zero_Certificate E, Some k)
    | inr err => inr err
    end
  else inr "wrong certificate key extension".

(** The [switch ext] over decoded base64 key bytes. *)
Definition switch_key_bytes (ext key key_password : string)
  : Certificate E * option (PrivateKey E) + error :=
  if String.eqb ext ".p12" then
    match FromP12Bytes E key key_password with
    | inl c => inl (c, None)
    | inr err => inr err
    end
  else if String.eqb ext ".pem" then
    match FromPemBytes E key key_password with
    | inl c => inl (c, None)
    | inr err => inr err
    end
  else if String.eqb ext ".p8" then
    match AuthKeyFromBytes E key with
    | inl k => inl (zero_Certificate E, Some k)
    | inr err => inr err
    end
  else inr "wrong certificate key type".

Definition missing_ids_msg : string :=
  "You should provide ios.KeyID and ios.TeamID for P8 token".

(** [InitAPNSClient]. The pointer it returns is the package-level
    [ApnsClient]. *)
Definition InitAPNSClient (cfg : ConfYaml)
    (key_path key_base64 key_type password key_id team_id : string)
  : M (option ApnsClientT) :=
  if Enabled (Ios cfg) then
    let key_file_path := or_default key_path (KeyPath (Ios cfg)) in
    let key_base64_string := or_default key_base64 (KeyBase64 (Ios cfg)) in
    let key_password := or_default password (Password (Ios cfg)) in
    let key_type_string := or_default key_type (KeyType (Ios cfg)) in
    let key_id_string := or_default key_id (KeyID (Ios cfg)) in
    let team_id_string := or_default team_id (TeamID (Ios cfg)) in
    km <- (if nonempty key_file_path then
             let ext := filepath_Ext key_file_path in
             match switch_key_file ext key_file_path key_password with
             | inr err =>
                 effect (LogError_Error ("Cert Error:" ++ err)) ;;; fail err
             | inl (certificateKey, authKey) =>
                 ret (ext, certificateKey, authKey)
             end
           else if nonempty key_base64_string then
             let ext := "." ++ key_type_string in
             match DecodeString E key_base64_string with
             | inr err =>
                 effect (LogError_Error ("base64 decode error:" ++ err)) ;;;
                 fail err
             | inl key =>
                 match switch_key_bytes ext key key_password with
                 | inr err =>
                     effect (LogError_Error ("Cert Error:" ++ err)) ;;;
                     fail err
                 | inl (certificateKey, authKey) =>
                     ret (ext, certificateKey, authKey)
                 end
             end
           else ret ("", zero_Certificate E, None)) ;;
    let '(ext, certificateKey, authKey) := km in
    built <- (if String.eqb ext ".p8" then
                if String.eqb key_id_string "" || String.eqb team_id_string ""
                then
                  effect (LogError_Error missing_ids_msg) ;;;
                  fail missing_ids_msg
                else
                  ret (newApnsTokenClient cfg
                         {| AuthKey := authKey;
                            TokenKeyID := key_id_string;
                            TokenTeamID := team_id_string |})
              else ret (newApnsClient cfg certificateKey)) ;;
    let '(client, err) := built in
    effect (set_ApnsClient client) ;;;
    match client with
    | None => panic nil_dereference
    | Some c =>
        effect (set_ApnsClient
                  (Some match ClientTransport c with
                        | H2Transport _ _ =>
                            set_Transport c
                              (configureHTTP2ConnHealthCheck (ClientTransport c))
                        | HTTPTransport _ _ _ _ _ => c
                        end)) ;;;
        match err with
        | Some e =>
            effect (LogError_Error ("Transport Error:" ++ e)) ;;; fail e
        | None => read ApnsClient
        end
    end
  else read ApnsClient.

(** [getApnsClient]: [Production()] and [Development()] write the host of
    the client behind the pointer, which is the package-level one. *)
Definition getApnsClient (cfg : ConfYaml) (req : PushNotification)
  : M ApnsClientT :=
  apns_client <- InitAPNSClient cfg (ApnsKeyPath req) (ApnsKeyBase64 req)
                   (ApnsKeyType req) (ApnsPassword req) (ApnsKeyID req)
                   (ApnsTeamID req) ;;
  match apns_client with
  | None => panic nil_dereference
  | Some c =>
      let client :=
        if ReqProduction req then Production c
        else if Development_ req then Development c
        else if IosProduction (Ios cfg) then Production c
        else Development c in
      effect (set_ApnsClient (Some client)) ;;; ret client
  end.

(** *** One round of workers *)

(** What one worker got back from [client.Push]. *)
Record Attempt : Type := {
  att_token : string;
  att_res : option Response;
  att_err : option error
}.

(** [err != nil || (res != nil && res.StatusCode != http.StatusOK)] *)
Definition push_failed (res : option Response) (err : option error) : bool :=
  match err with Some _ => true | None => false end
  || match res with
     | Some r => negb (StatusCode r =? StatusOK)
     | None => false
     end.

(** [res != nil && res.StatusCode >= http.StatusInternalServerError] *)
Definition retryable_status (res : option Response) : bool :=
  match res with
  | Some r => StatusInternalServerError <=? StatusCode r
  | None => false
  end.

(** [res != nil && res.Sent()] *)
Definition push_sent (res : option Response) : bool :=
  match res with
  | Some r => Sent r
  | None => false
  end.

(** The body of the goroutine started for one token. *)
Definition worker (req : PushNotification) (client : ApnsClientT)
    (notification : Notification) (token : string)
    (st : World * list string) : World * list string * Attempt :=
  let '(w, newTokens) := st in
  let notification := set_DeviceToken notification token in
  let '(res, err, p) := Push E (provider w) client notification in
  let w := set_provider p w in
  let '(w, newTokens) :=
    if push_failed res err then
      let err :=
        match err, res with
        | Some e, _ => e
        | None, Some r => Reason r
        | None, None => ""
        end in
      let w := logPush (Cfg req) FailedPush token req (Some err) w in
      let w :=
        if Sync (Core (Cfg req)) then
          AddLog (createLogPushEntry E (Cfg req) FailedPush token req
                    (Some err)) w
        else if nonempty (FeedbackURL (Core (Cfg req))) then
          go_DispatchFeedback
            (createLogPushEntry E (Cfg req) FailedPush token req (Some err))
            (FeedbackURL (Core (Cfg req))) (FeedbackTimeout (Core (Cfg req)))
            w
        else w in
      let w := AddIosError 1 w in
      (w, if retryable_status res then (newTokens ++ [token])%list
          else newTokens)
    else (w, newTokens) in
  let w :=
    if push_sent res then
      AddIosSuccess 1 (logPush (Cfg req) SucceededPush token req None w)
    else w in
  (w, newTokens,
   {| att_token := token; att_res := res; att_err := err |}).

(** [for _, token := range req.Tokens { go func ... }; wg.Wait()]: the
    world and [newTokens] after the round, and what each worker met. *)
Fixpoint dispatch (req : PushNotification) (client : ApnsClientT)
    (notification : Notification) (tokens : list string)
    (st : World * list string) : World * list string * list Attempt :=
  match tokens with
  | [] => (st, [])
  | token :: rest =>
      let '(st', a) := worker req client notification token st in
      let '(st'', l) := dispatch req client notification rest st' in
      (st'', a :: l)
  end.

(** *** The retry loop *)

(** One pass through the block at the [Retry] label that reached the
    workers: what they met and the [newTokens] they left. *)
Record Round : Type := {
  attempts : list Attempt;
  newTokens : list string
}.

(** A finished call: whether it returned or panicked, the world it left,
    and its rounds in order. *)
Record Run : Type := {
  outcome : result unit;
  final : World;
  rounds : list Round
}.

(** The block at the [Retry] label with its [goto]; [fuel] bounds the number
    of passes, and [None] means it was used up. *)
Fixpoint Retry_loop (fuel : nat) (req : PushNotification)
    (retryCount maxRetry : Z) (w : World) (done : list Round) : option Run :=
  match fuel with
  | O => None
  | S fuel' =>
      let notification := GetIOSNotification (mapstructure_Decode E) req in
      match getApnsClient (Cfg req) req w with
      | (Err err, w) =>
          Some {| outcome := Ok tt;
                  final := LogError_Error ("APN server error: " ++ err) w;
                  rounds := done |}
      | (Panic msg, w) =>
          Some {| outcome := Panic msg; final := w; rounds := done |}
      | (Ok client, w) =>
          let '(w, newTokens, atts) :=
            dispatch req client notification (Tokens req) (w, []) in
          let done :=
            (done ++ [{| attempts := atts; newTokens := newTokens |}])%list in
          if nonempty_list newTokens && (retryCount <? maxRetry) then
            Retry_loop fuel' (set_Tokens req newTokens) (retryCount + 1)
              maxRetry w done
          else Some {| outcome := Ok tt; final := w; rounds := done |}
      end
  end.

(** [if req.Cfg.Core.Sync && !core.IsLocalQueue(...) { req.Cfg.Core.Sync = false }] *)
Definition adjust_sync (req : PushNotification) : PushNotification :=
  if Sync (Core (Cfg req)) && negb (IsLocalQueue E (Engine (Queue (Cfg req))))
  then set_Cfg req (set_Sync (Cfg req) false)
  else req.

(** [maxRetry] when the loop starts. *)
Definition effective_maxRetry (req : PushNotification) : Z :=
  let maxRetry := MaxRetry (Ios (Cfg req)) in
  if (0 <? Retry req) && (Retry req <? maxRetry) then Retry req else maxRetry.

(** [PushToIOS] *)
Definition PushToIOS (fuel : nat) (req : PushNotification) (w : World)
  : option Run :=
  let w := LogAccess_Debug "Start push notification for iOS" w in
  let req := adjust_sync req in
  let retryCount := 0 in
  let maxRetry := effective_maxRetry req in
  Retry_loop fuel req retryCount maxRetry w [].

End Engine.

Arguments ApnsClient {E} _.
Arguments provider {E} _.
Arguments LogAccess {E} _.
Arguments LogError {E} _.
Arguments PushLog {E} _.
Arguments RequestLog {E} _.
Arguments FeedbackCalls {E} _.
Arguments IosSuccess {E} _.
Arguments IosError {E} _.
Arguments outcome {E} _.
Arguments final {E} _.
Arguments rounds {E} _.

(** ** A concrete environment

    Decoders that accept every key except the base64 text ["!"], a provider
    that answers from a script indexed by the number of calls made so far
    and the device token, a transport configuration that fails or not, and
    log entries that keep the status, the token and the error. *)

(** A decoder of mappings into [Sound] for the lower-case keys of the JSON
    binding; a number is cut to its integer part for [Critical]. *)
Fixpoint decode_Sound (m : list (string * Value)) (s : Sound) : Sound :=
  match m with
  | [] => s
  | (k, v) :: rest =>
      let s' :=
        match v with
        | VNumber q =>
            if String.eqb k "critical" then
              {| Critical := Qnum q / Z.pos (Qden q);
                 Name := Name s; Volume := Volume s |}
            else if String.eqb k "volume" then
              {| Critical := Critical s; Name := Name s; Volume := q |}
            else s
        | VString str =>
            if String.eqb k "name" then
              {| Critical := Critical s; Name := str; Volume := Volume s |}
            else s
        | _ => s
        end in
      decode_Sound rest s'
  end.

Definition Script : Type := nat -> string -> option Response * option error.

Definition demo (transport_error : option error) (script : Script)
  : Externals :=
  {| Certificate := string;
     PrivateKey := string;
     zero_Certificate := "";
     FromP12File := fun path _ => inl path;
     FromPemFile := fun path _ => inl path;
     AuthKeyFromFile := fun path => inl path;
     DecodeString := fun s =>
       if String.eqb s "!" then inr "illegal base64 data at input byte 0"
       else inl s;
     FromP12Bytes := fun key _ => inl key;
     FromPemBytes := fun key _ => inl key;
     AuthKeyFromBytes := fun key => inl key;
     ConfigureTransports := fun _ => transport_error;
     ProviderState := nat;
     Push := fun calls _ n => (script calls (DeviceToken n), S calls);
     IsLocalQueue := fun q => String.eqb q "local";
     LogPushEntry := PushStatus * string * option error;
     createLogPushEntry := fun _ st token _ err => (st, token, err);
     mapstructure_Decode := decode_Sound |}.

Definition demo_world (transport_error : option error) (script : Script)
  : World (demo transport_error script) :=
  Build_World (demo transport_error script) None O [] [] [] [] [] 0 0.

Definition demo_cfg (key_path proxy : string) (max_retry : Z) : ConfYaml :=
  {| Core := {| Sync := false; HTTPProxy := proxy; FeedbackURL := "";
                FeedbackTimeout := 10 |};
     Ios := {| Enabled := true; KeyPath := key_path; KeyBase64 := "";
               KeyType := "pem"; Password := ""; IosProduction := false;
               MaxConcurrentPushes := 100; MaxRetry := max_retry;
               KeyID := ""; TeamID := "" |};
     Queue := {| Engine := "local" |} |}.

Definition no_alert : Alert :=
  Build_Alert "" "" "" "" [] "" "" "" [] "" "" 0.

Definition demo_req (cfg : ConfYaml) (tokens : list string)
  : PushNotification :=
  {| Cfg := cfg; Tokens := tokens; Message := "hello"; Title := "";
     Priority := ""; ContentAvailable := false; MutableContent := false;
     ReqSound := SoundNil; Data := []; Retry := 0; Expiration := None;
     ApnsID := ""; CollapseID := ""; Topic := ""; PushType := "";
     Badge := None; Category := ""; ThreadID := ""; URLArgs := [];
     ReqAlert := no_alert; ReqProduction := false; Development_ := false;
     SoundName := ""; SoundVolume := 0%Q; ApnsKeyPath := "";
     ApnsKeyBase64 := ""; ApnsKeyType := ""; ApnsPassword := "";
     ApnsKeyID := ""; ApnsTeamID := "" |}.

(** The provider answers every call with the given status. *)
Definition always (status : Z) : Script :=
  fun _ _ => (Some {| StatusCode := status; Reason := "" |}, None).

(** The provider never answers: a nil response and an error. *)
Definition no_response : Script :=
  fun _ _ => (None, Some "connection reset").

(** Token ["A"] meets 503, token ["B"] 400, every other token 200. *)
Definition abc_script : Script :=
  fun _ token =>
    if String.eqb token "A" then
      (Some {| StatusCode := 503; Reason := "ServiceUnavailable" |}, None)
    else if String.eqb token "B" then
      (Some {| StatusCode := 400; Reason := "BadDeviceToken" |}, None)
    else (Some {| StatusCode := 200; Reason := "" |}, None).


(** ** Vocabulary of the properties *)





(** The tokens a round dispatched, in order. *)
Definition round_tokens (r : Round) : list string :=
  map att_token (attempts r).




(** The attempt met no response at all: a nil response and an error. *)
Definition no_provider_response (a : Attempt) : Prop :=
  att_res a = None /\ att_err a <> None.

(** The tokens of the attempts of a round with a server-class response. *)
Definition retry_tokens (atts : list Attempt) : list string :=
  map att_token (filter (fun a => retryable_status (att_res a)) atts).

(** The rounds of a loop that starts on [tokens] with the counter at
    [retryCount]: each round dispatches the tokens handed to it, leaves the
    tokens of its server-class failures, and is followed by another round
    exactly when it left some token and the counter is below [maxRetry]. *)
Fixpoint loop_trace (tokens : list string) (retryCount maxRetry : Z)
    (rs : list Round) : Prop :=
  match rs with
  | [] => False
  | r :: rs' =>
      round_tokens r = tokens /\
      newTokens r = retry_tokens (attempts r) /\
      if nonempty_list (newTokens r) && (retryCount <? maxRetry)
      then loop_trace (newTokens r) (retryCount + 1) maxRetry rs'
      else rs' = []
  end.

(** Fuel that lets the loop of a request finish, and any amount more. *)
Definition fuel_for (maxRetry : Z) (extra : nat) : nat :=
  (S (Z.to_nat maxRetry) + extra)%nat.



(** [w'] differs from [w] at most in the package-level client and in the
    error log. *)
Definition same_but_client_and_errors {E : Externals} (w w' : World E) : Prop :=
  provider w' = provider w /\
  LogAccess w' = LogAccess w /\
  PushLog w' = PushLog w /\
  RequestLog w' = RequestLog w /\
  FeedbackCalls w' = FeedbackCalls w /\
  IosSuccess w' = IosSuccess w /\
  IosError w' = IosError w.

(** The proxying transport [newApnsClient] and [newApnsTokenClient] hand to
    [http2.ConfigureTransports]. *)
Definition proxy_transport : Transport :=
  HTTPTransport idleConnTimeout tlsDialTimeout tcpKeepAlive 0 0.

(** The extensions that select a decoding routine. *)
Definition key_extension (ext : string) : Prop :=
  ext = ".p12" \/ ext = ".pem" \/ ext = ".p8".

(** The configuration errors of [InitAPNSClient], over the resolved key
    path, base64 text, key type, password, key id and team id. *)
Definition bad_extension (path : string) : Prop :=
  path <> "" /\ ~ key_extension (filepath_Ext path).

Definition bad_key_type (path b64 type : string) : Prop :=
  path = "" /\ b64 <> "" /\ ~ key_extension ("." ++ type).

Definition decoding_fails (E : Externals) (path b64 type pw : string) : Prop :=
  (path <> "" /\
   ((filepath_Ext path = ".p12" /\ exists e, FromP12File E path pw = inr e) \/
    (filepath_Ext path = ".pem" /\ exists e, FromPemFile E path pw = inr e) \/
    (filepath_Ext path = ".p8" /\ exists e, AuthKeyFromFile E path = inr e)))
  \/
  (path = "" /\ b64 <> "" /\
   ((exists e, DecodeString E b64 = inr e) \/
    exists key, DecodeString E b64 = inl key /\
      (("." ++ type = ".p12" /\ exists e, FromP12Bytes E key pw = inr e) \/
       ("." ++ type = ".pem" /\ exists e, FromPemBytes E key pw = inr e) \/
       ("." ++ type = ".p8" /\ exists e, AuthKeyFromBytes E key = inr e)))).

Definition token_style (path b64 type : string) : Prop :=
  (path <> "" /\ filepath_Ext path = ".p8") \/
  (path = "" /\ b64 <> "" /\ "." ++ type = ".p8").

Definition missing_ids (path b64 type kid tid : string) : Prop :=
  token_style path b64 type /\ (kid = "" \/ tid = "").


(** The attempt took the failure branch of the worker, and the error it
    logged there. *)
Definition failed (a : Attempt) : bool := push_failed (att_res a) (att_err a).

Definition failure_error (a : Attempt) : error :=
  match att_err a, att_res a with
  | Some e, _ => e
  | None, Some r => Reason r
  | None, None => ""
  end.

(** The feedback call a failed attempt starts when the request is not in
    synchronous mode and a feedback URL is configured. *)
Definition feedback_call (E : Externals) (req : PushNotification)
    (a : Attempt) : LogPushEntry E * string * Z :=
  (createLogPushEntry E (Cfg req) FailedPush (att_token a) req
     (Some (failure_error a)),
   FeedbackURL (Core (Cfg req)), FeedbackTimeout (Core (Cfg req))).

(** The feedback calls of a sequence of rounds, the request of each round
    carrying the tokens left by the round before. *)
Fixpoint feedback_calls (E : Externals) (req : PushNotification)
    (rs : list Round) : list (LogPushEntry E * string * Z) :=
  match rs with
  | [] => []
  | r :: rs' =>
      (map (feedback_call E req) (filter failed (attempts r))
       ++ feedback_calls E (set_Tokens req (newTokens r)) rs')%list
  end.


(** Requests of the scenarios: three tokens against a provider that answers
    503, 400 and 200; one token against a provider that never answers; a
    key file with an unknown extension; a synchronous deployment on a queue
    that is not local, with a feedback URL. *)
Definition abc_env : Externals := demo None abc_script.
Definition abc_req : PushNotification :=
  demo_req (demo_cfg "" "" 2) ["A"; "B"; "C"].
Definition abc_world : World abc_env := demo_world None abc_script.

Definition silent_env : Externals := demo None no_response.
Definition silent_req : PushNotification := demo_req (demo_cfg "" "" 3) ["A"].
Definition silent_world : World silent_env := demo_world None no_response.

Definition bad_key_req : PushNotification :=
  demo_req (demo_cfg "key.txt" "" 2) ["A"; "B"; "C"].

Definition sync_cfg : ConfYaml :=
  {| Core := {| Sync := true; HTTPProxy := "";
                FeedbackURL := "http://hooks.internal/apns";
                FeedbackTimeout := 10 |};
     Ios := Ios (demo_cfg "" "" 2);
     Queue := {| Engine := "nsq" |} |}.
Definition sync_req : PushNotification := demo_req sync_cfg ["A"; "B"; "C"].

(** A client built from the zero certificate, and the notification of the
    request against the silent provider. *)
Definition demo_client : Client string string := NewClient "".
Definition silent_notification : Notification :=
  GetIOSNotification decode_Sound silent_req.

(** The run of a call that finished. *)
Definition run_of {E : Externals} (w : World E) (o : option (Run E)) : Run E :=
  match o with
  | Some run => run
  | None => {| outcome := Panic "out of fuel"; final := w; rounds := [] |}
  end.

(** The provider answers its first call with 200 and every later call with
    503, whatever the token. *)
Definition flaky_script : Script :=
  fun calls _ =>
    match calls with
    | O => (Some {| StatusCode := 200; Reason := "" |}, None)
    | S _ => (Some {| StatusCode := 503; Reason := "ServiceUnavailable" |}, None)
    end.
Definition flaky_env : Externals := demo None flaky_script.
Definition twice_req : PushNotification := demo_req (demo_cfg "" "" 1) ["A"; "A"].
Definition flaky_world : World flaky_env := demo_world None flaky_script.

Definition custom_of (n : Notification) : list (string * Value) :=
  content_custom (NPayload n).

(** [set] on a key/value list, as a fold over the entries of a map. *)
Definition map_of_entries (l : list (string * Value)) : list (string * Value) :=
  fold_left (fun m kv => map_set m (fst kv) (snd kv)) l [].

(** The last value given for a key in a list of entries. *)
Fixpoint last_value (l : list (string * Value)) (k : string) : option Value :=
  match l with
  | [] => None
  | (k', v) :: rest =>
      match last_value rest k with
      | Some v' => Some v'
      | None => if String.eqb k k' then Some v else None
      end
  end.

(** Lookup in a key/value list. *)
Fixpoint map_get (m : list (string * Value)) (k : string) : option Value :=
  match m with
  | [] => None
  | (k', v) :: rest => if String.eqb k k' then Some v else map_get rest k
  end.

(** The deployment configuration with the request-level overrides written
    into the fields they override. *)
Definition with_overrides (cfg : ConfYaml)
    (key_path key_base64 key_type password key_id team_id : string)
  : ConfYaml :=
  {| Core := Core cfg;
     Ios := {| Enabled := Enabled (Ios cfg);
               KeyPath := or_default key_path (KeyPath (Ios cfg));
               KeyBase64 := or_default key_base64 (KeyBase64 (Ios cfg));
               KeyType := or_default key_type (KeyType (Ios cfg));
               Password := or_default password (Password (Ios cfg));
               IosProduction := IosProduction (Ios cfg);
               MaxConcurrentPushes := MaxConcurrentPushes (Ios cfg);
               MaxRetry := MaxRetry (Ios cfg);
               KeyID := or_default key_id (KeyID (Ios cfg));
               TeamID := or_default team_id (TeamID (Ios cfg)) |};
     Queue := Queue cfg |}.

(** The host of the deployment, and the host a request asks for. *)
Definition deployment_host (cfg : ConfYaml) : Host :=
  if IosProduction (Ios cfg) then HostProduction else HostDevelopment.

Definition request_host (cfg : ConfYaml) (req : PushNotification) : Host :=
  if ReqProduction req then HostProduction
  else if Development_ req then HostDevelopment
  else deployment_host cfg.

(** The transport of a client the factory hands out: health checks of one
    second on the HTTP/2 transport, behind the proxying transport when a
    proxy is configured. *)
Definition factory_transport (cfg : ConfYaml) : Transport :=
  if String.eqb (HTTPProxy (Core cfg)) "" then H2Transport 1 1
  else HTTPTransport idleConnTimeout tlsDialTimeout tcpKeepAlive 1 1.

(** A character that ends neither a path element nor an extension. *)
Definition plain_char (c : ascii) : bool :=
  negb (is_dot c) && negb (IsPathSeparator c).

Definition plain_name (s : string) : Prop :=
  forallb plain_char (list_ascii_of_string s) = true.

(** The attempts of a sequence of rounds, and how many of them took the
    failure branch and how many were sent. *)
Definition all_attempts (rs : list Round) : list Attempt :=
  flat_map attempts rs.
Definition sent (a : Attempt) : bool := push_sent (att_res a).
Definition count_failed (rs : list Round) : Z :=
  Z.of_nat (List.length (filter failed (all_attempts rs))).
Definition count_sent (rs : list Round) : Z :=
  Z.of_nat (List.length (filter sent (all_attempts rs))).

(** The entries [req.AddLog] receives for the failed attempts of a sequence of
    rounds. *)
Definition request_log_entries (E : Externals) (req : PushNotification)
    (rs : list Round) : list (LogPushEntry E) :=
  map (fun call => fst (fst call)) (feedback_calls E req rs).

(** What the attempt met is what some call of the provider returned. *)
Definition pushed (E : Externals) (a : Attempt) : Prop :=
  exists st client n st',
    Push E st client n = (att_res a, att_err a, st') /\
    DeviceToken n = att_token a.

(** ** The status engine (status/status.go)

    [config.ConfYaml] as the status package reads it: the engine of the
    [Stat] section, next to the sections of the dispatch. *)
Record StatusConf : Type := {
  StatEngine : string;
  Deployment : ConfYaml
}.

(** The storage packages behind [storage.Storage]. *)
Inductive Driver : Type := Memory | Redis | BoltDB | BuntDB | LevelDB | Badger.

(** The value a package's [New] returns: [memory.New()] takes nothing, the
    other packages take the configuration. *)
Record Storage : Type := {
  driver : Driver;
  storage_conf : option StatusConf
}.

(** [*stats.Stats] as [stats.New()] returns it. *)
Inductive StatsT : Type := NewStats.

(** The package-level [StatStorage] and [Stats], and the two loggers. *)
Record StatusWorld : Type := {
  StatStorage : option Storage;
  Stats : option StatsT;
  StatusLogAccess : list string;
  StatusLogError : list string
}.

Definition unknown_driver : error := "can't find storage driver".

Section Status.

(** [StatStorage.Init()]: [None] when the backend is ready. *)
Variable Storage_Init : Storage -> option error.

(** The [switch conf.Stat.Engine]: the backend assigned to [StatStorage], or
    the default case. *)
Definition switch_engine (conf : StatusConf) : option Storage :=
  if String.eqb (StatEngine conf) "memory" then
    Some {| driver := Memory; storage_conf := None |}
  else if String.eqb (StatEngine conf) "redis" then
    Some {| driver := Redis; storage_conf := Some conf |}
  else if String.eqb (StatEngine conf) "boltdb" then
    Some {| driver := BoltDB; storage_conf := Some conf |}
  else if String.eqb (StatEngine conf) "buntdb" then
    Some {| driver := BuntDB; storage_conf := Some conf |}
  else if String.eqb (StatEngine conf) "leveldb" then
    Some {| driver := LevelDB; storage_conf := Some conf |}
  else if String.eqb (StatEngine conf) "badger" then
    Some {| driver := Badger; storage_conf := Some conf |}
  else None.

(** [InitAppStatus]: the error it returns ([None] for nil) and the world it
    leaves. *)
Definition InitAppStatus (conf : StatusConf) (w : StatusWorld)
  : option error * StatusWorld :=
  let w :=
    {| StatStorage := StatStorage w;
       Stats := Stats w;
       StatusLogAccess :=
         (StatusLogAccess w
          ++ [("Init App Status Engine as " ++ StatEngine conf)%string])%list;
       StatusLogError := StatusLogError w |} in
  match switch_engine conf with
  | None =>
      (Some unknown_driver,
       {| StatStorage := StatStorage w;
          Stats := Stats w;
          StatusLogAccess := StatusLogAccess w;
          StatusLogError :=
            (StatusLogError w
             ++ ["storage error: can't find storage driver"])%list |})
  | Some storage =>
      let w :=
        {| StatStorage := Some storage;
           Stats := Stats w;
           StatusLogAccess := StatusLogAccess w;
           StatusLogError := StatusLogError w |} in
      match Storage_Init storage with
      | Some err =>
          (Some err,
           {| StatStorage := StatStorage w;
              Stats := Stats w;
              StatusLogAccess := StatusLogAccess w;
              StatusLogError :=
                (StatusLogError w ++ [("storage error: " ++ err)%string])%list |})
      | None =>
          (None,
           {| StatStorage := StatStorage w;
              Stats := Some NewStats;
              StatusLogAccess := StatusLogAccess w;
              StatusLogError := StatusLogError w |})
      end
  end.

End Status.

(** The engine names of the [switch], and the name of a driver. *)
Definition storage_engines : list string :=
  ["memory"; "redis"; "boltdb"; "buntdb"; "leveldb"; "badger"].

Definition driver_name (d : Driver) : string :=
  match d with
  | Memory => "memory"
  | Redis => "redis"
  | BoltDB => "boltdb"
  | BuntDB => "buntdb"
  | LevelDB => "leveldb"
  | Badger => "badger"
  end.

(** A status world before [InitAppStatus], and a backend whose [Init] fails
    for redis only. *)
Definition fresh_status : StatusWorld :=
  {| StatStorage := None; Stats := None;
     StatusLogAccess := []; StatusLogError := [] |}.

Definition redis_down (s : Storage) : option error :=
  match driver s with
  | Redis => Some "dial tcp 127.0.0.1:6379: connect: connection refused"
  | _ => None
  end.

Definition status_conf (engine : string) : StatusConf :=
  {| StatEngine := engine; Deployment := demo_cfg "" "" 0 |}.



Definition built_client : Client string string :=
  {| ClientHost := HostDevelopment;
     ClientCredential := CertCredential "";
     ClientTransport := H2Transport 1 1 |}.

Definition disabled_cfg : ConfYaml :=
  {| Core := Core (demo_cfg "" "" 2);
     Ios := {| Enabled := false; KeyPath := ""; KeyBase64 := "";
               KeyType := "pem"; Password := ""; IosProduction := false;
               MaxConcurrentPushes := 100; MaxRetry := 2;
               KeyID := ""; TeamID := "" |};
     Queue := Queue (demo_cfg "" "" 2) |}.
Definition disabled_req : PushNotification := demo_req disabled_cfg ["A"].


Definition rejecting_env : Externals := demo None (always 400).
Definition rejecting_world : World rejecting_env :=
  demo_world None (always 400).

Definition no_token_req : PushNotification := demo_req (demo_cfg "" "" 2) [].

(** * Properties of the notification builder *)

Section BuilderProperties.

Variable decode : list (string * Value) -> Sound -> Sound.












(** X1. Only the two priority strings are recognised: ["normal"] gives the
    low priority 5, ["high"] the high priority 10, and every other value,
    the empty one included, leaves the priority unset. *)
Theorem GetIOSNotification_priority req :
  (NPriority (GetIOSNotification decode req) = PriorityLow
   <-> Priority req = "normal") /\
  (NPriority (GetIOSNotification decode req) = PriorityHigh
   <-> Priority req = "high") /\
  (NPriority (GetIOSNotification decode req) = 0
   <-> Priority req <> "normal" /\ Priority req <> "high").
Proof.
  unfold GetIOSNotification. cbv zeta. cbn [NPriority].
  unfold nonempty, PriorityLow, PriorityHigh.
  destruct (String.eqb (Priority req) "") eqn:He.
  - apply String.eqb_eq in He. rewrite He. cbn.
    repeat split; intros; try discriminate; try lia; intuition discriminate.
  - cbn [negb].
    destruct (String.eqb (Priority req) "normal") eqn:Hn.
    + apply String.eqb_eq in Hn.
      repeat split; intros; try discriminate; try lia; try assumption;
        try (rewrite Hn in *; discriminate); intuition congruence.
    + apply String.eqb_neq in Hn.
      destruct (String.eqb (Priority req) "high") eqn:Hh.
      * apply String.eqb_eq in Hh.
        repeat split; intros; try discriminate; try lia; try assumption;
          intuition congruence.
      * apply String.eqb_neq in Hh.
        repeat split; intros; try discriminate; try lia; try assumption;
          intuition congruence.
Qed.





Lemma custom_when (b : bool) f p :
  (forall q, content_custom (f q) = content_custom q) ->
  content_custom (when b f p) = content_custom p.
Proof. intros Hf. unfold when. destruct b; [apply Hf | reflexivity]. Qed.

Lemma iosAlertDictionary_custom p req :
  content_custom (iosAlertDictionary p req) = content_custom p.
Proof.
  unfold iosAlertDictionary. cbv zeta.
  repeat (rewrite custom_when by (intros ?; reflexivity)). reflexivity.
Qed.

Lemma Custom_fold_custom (l : list (string * Value)) : forall p,
  content_custom
    (fold_left (fun p kv => payload_Custom p (fst kv) (snd kv)) l p)
  = fold_left (fun m kv => map_set m (fst kv) (snd kv)) l (content_custom p).
Proof.
  induction l as [| kv l IH]; intros p; cbn [fold_left]; [reflexivity |].
  rewrite IH. reflexivity.
Qed.

Lemma map_get_set m k v k' :
  map_get (map_set m k v) k'
  = if String.eqb k' k then Some v else map_get m k'.
Proof.
  induction m as [| [k0 v0] m IH]; cbn.
  - reflexivity.
  - destruct (String.eqb k k0) eqn:Hk; cbn.
    + apply String.eqb_eq in Hk. subst k0.
      destruct (String.eqb k' k); reflexivity.
    + rewrite IH. destruct (String.eqb k' k0) eqn:Hk0; [| reflexivity].
      apply String.eqb_eq in Hk0. subst k0.
      rewrite String.eqb_sym, Hk. reflexivity.
Qed.

Lemma map_get_fold l : forall m k,
  map_get (fold_left (fun m kv => map_set m (fst kv) (snd kv)) l m) k
  = match last_value l k with
    | Some v => Some v
    | None => map_get m k
    end.
Proof.
  induction l as [| [k0 v0] l IH]; intros m k; cbn [fold_left last_value];
    [reflexivity |].
  rewrite IH. cbn [fst snd].
  destruct (last_value l k); [reflexivity |].
  rewrite map_get_set. destruct (String.eqb k k0); reflexivity.
Qed.

Lemma map_set_fresh m k v :
  ~ In k (map fst m) -> map_set m k v = (m ++ [(k, v)])%list.
Proof.
  induction m as [| [k0 v0] m IH]; cbn; intros Hn; [reflexivity |].
  destruct (String.eqb k k0) eqn:Hk.
  - apply String.eqb_eq in Hk. subst k0. tauto.
  - rewrite IH by tauto. reflexivity.
Qed.

Lemma map_set_fold_fresh l : forall m,
  NoDup (map fst l) ->
  (forall k, In k (map fst l) -> ~ In k (map fst m)) ->
  fold_left (fun m kv => map_set m (fst kv) (snd kv)) l m = (m ++ l)%list.
Proof.
  induction l as [| [k v] l IH]; intros m Hnd Hfresh; cbn [fold_left].
  - now rewrite app_nil_r.
  - cbn [fst snd map] in *. inversion Hnd as [| ? ? Hk Hnd']; subst.
    rewrite map_set_fresh by (apply Hfresh; now left).
    rewrite IH.
    + rewrite <- app_assoc. reflexivity.
    + exact Hnd'.
    + intros k0 Hk0. rewrite map_app, in_app_iff. cbn.
      intros [Hin | [Heq | []]].
      * apply (Hfresh k0); [now right | exact Hin].
      * subst k0. contradiction.
Qed.

(** X4. The custom data of the request is copied into the payload key by
    key: looking a key up in the payload gives the value the request gives for
    it, and when the keys of the request are distinct, as in a map, the custom
    part of the payload is the data of the request, in order. *)
Theorem GetIOSNotification_custom_data req :
  (forall k, map_get (custom_of (GetIOSNotification decode req)) k
             = last_value (Data req) k) /\
  (NoDup (map fst (Data req)) ->
   custom_of (GetIOSNotification decode req) = Data req).
Proof.
  assert (H : custom_of (GetIOSNotification decode req)
              = fold_left (fun m kv => map_set m (fst kv) (snd kv))
                  (Data req) []).
  { unfold custom_of, GetIOSNotification. cbv zeta. cbn [NPayload].
    rewrite iosAlertDictionary_custom, Custom_fold_custom.
    repeat (rewrite custom_when by (intros ?; reflexivity)).
    assert (Hs : forall p s,
               content_custom (apply_Sound decode p s) = content_custom p)
      by (intros p s; destruct s; reflexivity).
    rewrite Hs.
    repeat (rewrite custom_when by (intros ?; reflexivity)).
    destruct (Badge req) as [b |]; [destruct (0 <=? b) |]; cbn;
      repeat (rewrite custom_when by (intros ?; reflexivity)); reflexivity. }
  split.
  - intros k. rewrite H, map_get_fold. destruct (last_value (Data req) k);
      reflexivity.
  - intros Hnd. rewrite H. apply map_set_fold_fresh; [exact Hnd |].
    intros k _ [].
Qed.



End BuilderProperties.


(** * Properties of the client factory *)

Section FactoryProperties.

Variable E : Externals.

(** Case analysis on every test and every decoder result the goal
    branches on, innermost first. *)
Ltac branch_cases :=
  repeat match goal with
         | |- context [if ?b then _ else _] =>
             lazymatch b with
             | context [if _ then _ else _] => fail
             | context [match _ with _ => _ end] => fail
             | _ => destruct b eqn:?
             end
         | |- context [match ?x with _ => _ end] =>
             lazymatch x with
             | context [if _ then _ else _] => fail
             | context [match _ with _ => _ end] => fail
             | _ => destruct x eqn:?
             end
         end.

Ltac run_init :=
  unfold InitAPNSClient, newApnsClient, newApnsTokenClient,
    bind, effect, fail, ret, read, panic;
  branch_cases.

(** [InitAPNSClient] touches nothing but [ApnsClient] and the error log. *)
Lemma InitAPNSClient_frame cfg kp kb kt pw kid tid (w : World E) :
  same_but_client_and_errors w
    (snd (InitAPNSClient E cfg kp kb kt pw kid tid w)).
Proof.
  run_init; cbn; repeat split.
Qed.

(** With the provider enabled, what [InitAPNSClient] returns does not depend
    on the world it starts in. *)
Lemma InitAPNSClient_outcome_enabled cfg kp kb kt pw kid tid (w w' : World E) :
  Enabled (Ios cfg) = true ->
  fst (InitAPNSClient E cfg kp kb kt pw kid tid w)
  = fst (InitAPNSClient E cfg kp kb kt pw kid tid w').
Proof.
  intros Hen. revert w w'.
  unfold InitAPNSClient. rewrite Hen. intros w w'.
  unfold newApnsClient, newApnsTokenClient, bind, effect, fail, ret, read,
    panic.
  branch_cases; reflexivity.
Qed.

(** The pointer [InitAPNSClient] returns is the package-level one, and it is
    not nil when the provider is enabled. *)
Lemma InitAPNSClient_Ok cfg kp kb kt pw kid tid (w w' : World E) c :
  InitAPNSClient E cfg kp kb kt pw kid tid w = (Ok c, w') ->
  ApnsClient w' = c /\ (Enabled (Ios cfg) = true -> c <> None).
Proof.
  run_init; intros H; inversion H; subst; cbn; split;
    solve [reflexivity | discriminate | intros; discriminate
          | intros; congruence].
Qed.

(** [getApnsClient] touches nothing but [ApnsClient] and the error log. *)
Lemma getApnsClient_frame cfg req (w : World E) :
  same_but_client_and_errors w (snd (getApnsClient E cfg req w)).
Proof.
  unfold getApnsClient, bind.
  pose proof (InitAPNSClient_frame cfg (ApnsKeyPath req) (ApnsKeyBase64 req)
                (ApnsKeyType req) (ApnsPassword req) (ApnsKeyID req)
                (ApnsTeamID req) w) as Hf.
  destruct (InitAPNSClient E cfg (ApnsKeyPath req) (ApnsKeyBase64 req)
              (ApnsKeyType req) (ApnsPassword req) (ApnsKeyID req)
              (ApnsTeamID req) w) as [[c | e | msg] w1]; cbn in *; auto.
  destruct c; cbn; auto.
Qed.

(** The client [getApnsClient] returns is the package-level one. *)
Lemma getApnsClient_Ok cfg req (w w1 : World E) c :
  getApnsClient E cfg req w = (Ok c, w1) -> ApnsClient w1 = Some c.
Proof.
  unfold getApnsClient, bind.
  destruct (InitAPNSClient E cfg (ApnsKeyPath req) (ApnsKeyBase64 req)
              (ApnsKeyType req) (ApnsPassword req) (ApnsKeyID req)
              (ApnsTeamID req) w) as [[c0 | e | msg] w0]; try discriminate.
  destruct c0; cbn; try discriminate.
  intros H; inversion H; reflexivity.
Qed.

(** Once the client resolved, it resolves again for the same request with
    other tokens, in any world that still holds a package-level client. *)
Lemma getApnsClient_again cfg req (w w1 w2 : World E) c ts :
  getApnsClient E cfg req w = (Ok c, w1) ->
  ApnsClient w2 <> None ->
  exists c' w3, getApnsClient E cfg (set_Tokens req ts) w2 = (Ok c', w3).
Proof.
  unfold getApnsClient, bind. cbn [ApnsKeyPath ApnsKeyBase64 ApnsKeyType
    ApnsPassword ApnsKeyID ApnsTeamID ReqProduction Development_ set_Tokens].
  intros H Hw2.
  destruct (Enabled (Ios cfg)) eqn:Hen.
  - pose proof (InitAPNSClient_outcome_enabled cfg (ApnsKeyPath req)
                  (ApnsKeyBase64 req) (ApnsKeyType req) (ApnsPassword req)
                  (ApnsKeyID req) (ApnsTeamID req) w w2 Hen) as Hsame.
    destruct (InitAPNSClient E cfg (ApnsKeyPath req) (ApnsKeyBase64 req)
                (ApnsKeyType req) (ApnsPassword req) (ApnsKeyID req)
                (ApnsTeamID req) w) as [[c0 | e | msg] w0]; try discriminate.
    destruct (InitAPNSClient E cfg (ApnsKeyPath req) (ApnsKeyBase64 req)
                (ApnsKeyType req) (ApnsPassword req) (ApnsKeyID req)
                (ApnsTeamID req) w2) as [o2 w2'].
    cbn in Hsame. subst o2.
    destruct c0 as [c0 |]; [| discriminate].
    unfold effect, ret. cbn. eauto.
  - unfold InitAPNSClient. rewrite Hen. unfold read, effect, ret.
    destruct (ApnsClient w2) as [c2 |]; [| congruence].
    cbn. eauto.
Qed.

(** When the inner construction fails (a proxy is configured and the HTTP/2
    transport cannot be set up), [InitAPNSClient] either stopped earlier on a
    key error or panics on the nil client: it never returns the construction
    error, and never logs it. *)
Lemma InitAPNSClient_construction_error cfg kp kb kt pw kid tid err
    (w : World E) :
  Enabled (Ios cfg) = true ->
  HTTPProxy (Core cfg) <> "" ->
  ConfigureTransports E proxy_transport = Some err ->
  fst (InitAPNSClient E cfg kp kb kt pw kid tid w) = Panic nil_dereference \/
  exists e line,
    fst (InitAPNSClient E cfg kp kb kt pw kid tid w) = Err e /\
    LogError (snd (InitAPNSClient E cfg kp kb kt pw kid tid w))
    = (LogError w ++ [line])%list /\
    (line = "Cert Error:" ++ e \/ line = "base64 decode error:" ++ e \/
     line = missing_ids_msg).
Proof.
  intros Hen Hproxy Hfail.
  apply String.eqb_neq in Hproxy.
  unfold InitAPNSClient. rewrite Hen.
  unfold newApnsClient, newApnsTokenClient. rewrite Hproxy.
  fold proxy_transport. rewrite Hfail.
  unfold bind, effect, fail, ret, read, panic.
  branch_cases; cbn;
    solve [ left; reflexivity
          | right; do 2 eexists; split; [reflexivity |];
            split; [reflexivity |]; auto ].
Qed.

Ltac eqb_facts :=
  repeat match goal with
         | H : String.eqb _ _ = true |- _ => apply String.eqb_eq in H
         | H : String.eqb _ _ = false |- _ => apply String.eqb_neq in H
         | H : nonempty _ = true |- _ =>
             unfold nonempty in H; apply negb_true_iff in H
         | H : nonempty _ = false |- _ =>
             unfold nonempty in H; apply negb_false_iff in H
         | H : (_ || _)%bool = true |- _ =>
             apply orb_true_iff in H; destruct H
         | H : (_ || _)%bool = false |- _ =>
             apply orb_false_iff in H; destruct H
         end.

(** With the provider enabled, [InitAPNSClient] returns an error exactly on
    a key path with an unknown extension, a base64 key with an unknown key
    type, a failed decoding, or token-style key material without key id or
    team id. *)
Lemma InitAPNSClient_error_iff cfg kp kb kt pw kid tid (w : World E) :
  Enabled (Ios cfg) = true ->
  let path := or_default kp (KeyPath (Ios cfg)) in
  let b64 := or_default kb (KeyBase64 (Ios cfg)) in
  let type := or_default kt (KeyType (Ios cfg)) in
  let password := or_default pw (Password (Ios cfg)) in
  let key_id := or_default kid (KeyID (Ios cfg)) in
  let team_id := or_default tid (TeamID (Ios cfg)) in
  (exists e, fst (InitAPNSClient E cfg kp kb kt pw kid tid w) = Err e) <->
  bad_extension path \/ bad_key_type path b64 type \/
  decoding_fails E path b64 type password \/
  missing_ids path b64 type key_id team_id.
Proof.
  intros Hen path b64 type password key_id team_id.
  unfold InitAPNSClient. rewrite Hen.
  fold path b64 type password key_id team_id.
  unfold switch_key_file, switch_key_bytes, newApnsClient, newApnsTokenClient,
    bind, effect, fail, ret, read, panic.
  unfold bad_extension, bad_key_type, decoding_fails, missing_ids,
    token_style, key_extension.
  generalize dependent path. generalize dependent b64.
  generalize dependent type. generalize dependent password.
  generalize dependent key_id. generalize dependent team_id.
  intros team_id key_id password type b64 path.
  branch_cases; cbn [fst]; eqb_facts.
  all: split;
    [ intros [e0 He0];
      first [ discriminate He0
            | clear He0; intuition (eauto 12; congruence) ]
    | intros Hc;
      first [ eexists; reflexivity
            | exfalso;
              repeat match goal with
                     | H : _ \/ _ |- _ => destruct H
                     | H : _ /\ _ |- _ => destruct H
                     | H : exists _, _ |- _ => destruct H
                     end;
              intuition congruence ] ].
Qed.

(** With the provider enabled and neither key path nor base64 key, a client
    is built from the zero certificate whenever the construction succeeds
    (no proxy, or the HTTP/2 transport is set up): no error is returned. *)
Lemma InitAPNSClient_no_key_material cfg kp kb kt pw kid tid (w : World E) :
  Enabled (Ios cfg) = true ->
  or_default kp (KeyPath (Ios cfg)) = "" ->
  or_default kb (KeyBase64 (Ios cfg)) = "" ->
  HTTPProxy (Core cfg) = "" \/ ConfigureTransports E proxy_transport = None ->
  exists c,
    fst (newApnsClient E cfg (zero_Certificate E)) = Some c /\
    exists c',
      fst (InitAPNSClient E cfg kp kb kt pw kid tid w) = Ok (Some c') /\
      ClientHost c' = ClientHost c /\
      ClientCredential c' = CertCredential (zero_Certificate E).
Proof.
  intros Hen Hpath Hb64 Hbuild.
  unfold InitAPNSClient. rewrite Hen, Hpath, Hb64.
  cbn [nonempty String.eqb negb].
  unfold newApnsClient. fold proxy_transport.
  unfold bind, effect, fail, ret, read, panic. cbn [String.eqb].
  destruct (String.eqb (HTTPProxy (Core cfg)) "") eqn:Hp.
  - destruct (IosProduction (Ios cfg)); cbn; eauto 8.
  - destruct Hbuild as [Hempty | Hok].
    + apply String.eqb_neq in Hp. contradiction.
    + rewrite Hok.
      destruct (IosProduction (Ios cfg)); cbn; eauto 8.
Qed.




(** X7. With the provider enabled, [InitAPNSClient] returns an error exactly
    when the resolved key path has an extension other than [.p12], [.pem] and
    [.p8], or there is no key path and the resolved key type of the base64
    key is none of the three, or the decoding of the base64 text or of the
    key fails, or the key is a [.p8] token key and the resolved key id or
    team id is empty. *)
Theorem InitAPNSClient_errors cfg kp kb kt pw kid tid (w : World E) :
  Enabled (Ios cfg) = true ->
  (exists e, fst (InitAPNSClient E cfg kp kb kt pw kid tid w) = Err e) <->
  bad_extension (or_default kp (KeyPath (Ios cfg))) \/
  bad_key_type (or_default kp (KeyPath (Ios cfg)))
    (or_default kb (KeyBase64 (Ios cfg)))
    (or_default kt (KeyType (Ios cfg))) \/
  decoding_fails E (or_default kp (KeyPath (Ios cfg)))
    (or_default kb (KeyBase64 (Ios cfg)))
    (or_default kt (KeyType (Ios cfg)))
    (or_default pw (Password (Ios cfg))) \/
  missing_ids (or_default kp (KeyPath (Ios cfg)))
    (or_default kb (KeyBase64 (Ios cfg)))
    (or_default kt (KeyType (Ios cfg)))
    (or_default kid (KeyID (Ios cfg)))
    (or_default tid (TeamID (Ios cfg))).
Proof.
  intros Hen. exact (InitAPNSClient_error_iff cfg kp kb kt pw kid tid w Hen).
Qed.

(** X8. A client [InitAPNSClient] returns with the provider enabled is not
    nil, is the package-level client from then on, targets the host of the
    deployment, and has the connection health checks configured, behind the
    proxying transport exactly when a proxy is configured; a token client
    carries a key and the resolved, non-empty key id and team id. *)
Theorem InitAPNSClient_client cfg kp kb kt pw kid tid (w w' : World E) c :
  Enabled (Ios cfg) = true ->
  InitAPNSClient E cfg kp kb kt pw kid tid w = (Ok c, w') ->
  exists c0,
    c = Some c0 /\
    ApnsClient w' = Some c0 /\
    ClientHost c0 = deployment_host cfg /\
    ClientTransport c0 = factory_transport cfg /\
    match ClientCredential c0 with
    | CertCredential _ => True
    | TokenCredential t =>
        AuthKey t <> None /\
        TokenKeyID t = or_default kid (KeyID (Ios cfg)) /\
        TokenKeyID t <> "" /\
        TokenTeamID t = or_default tid (TeamID (Ios cfg)) /\
        TokenTeamID t <> ""
    end.
Proof.
  intros Hen. unfold InitAPNSClient. rewrite Hen.
  unfold switch_key_file, switch_key_bytes, newApnsClient, newApnsTokenClient,
    deployment_host, factory_transport,
    bind, effect, fail, ret, read, panic.
  branch_cases; intros H; inversion H; subst; clear H;
    try discriminate; eqb_facts;
    try congruence;
    (eexists; split; [reflexivity |]; split; [reflexivity |];
     cbn in *; repeat split; try congruence; try discriminate).
Qed.
(** X9. An error of [InitAPNSClient] is a key error met before any client
    is built: the package-level client stays as it was, nothing but the error
    log changes, and the error log gains one line, which ends in the error
    returned. *)
Theorem InitAPNSClient_error_keeps_client cfg kp kb kt pw kid tid
    (w w' : World E) e :
  InitAPNSClient E cfg kp kb kt pw kid tid w = (Err e, w') ->
  ApnsClient w' = ApnsClient w /\
  same_but_client_and_errors w w' /\
  exists line,
    LogError w' = (LogError w ++ [line])%list /\
    (line = "Cert Error:" ++ e \/ line = "base64 decode error:" ++ e \/
     line = e).
Proof.
  unfold same_but_client_and_errors.
  run_init; intros H; inversion H; subst; clear H; cbn;
    (split; [reflexivity |]); (split; [repeat split |]);
    eexists; (split; [reflexivity |]); auto.
Qed.

(** X10. [newApnsClient] and [newApnsTokenClient] return a client or an
    error, never both and never neither; the error is the one of the HTTP/2
    transport configuration, which is only attempted behind a proxy. *)
Theorem newApnsClient_result cfg certificate token :
  let r := newApnsClient E cfg certificate in
  let r' := newApnsTokenClient E cfg token in
  (fst r = None <-> snd r <> None) /\
  (fst r' = None <-> snd r' <> None) /\
  (forall err, snd r = Some err <->
               HTTPProxy (Core cfg) <> "" /\
               ConfigureTransports E proxy_transport = Some err) /\
  (forall err, snd r' = Some err <->
               HTTPProxy (Core cfg) <> "" /\
               ConfigureTransports E proxy_transport = Some err).
Proof.
  cbv zeta. unfold newApnsClient, newApnsTokenClient. fold proxy_transport.
  destruct (String.eqb (HTTPProxy (Core cfg)) "") eqn:Hp.
  - apply String.eqb_eq in Hp. cbn.
    repeat split; intros; try discriminate; try congruence; try tauto.
  - apply String.eqb_neq in Hp.
    destruct (ConfigureTransports E proxy_transport) as [e0 |]; cbn;
      repeat split; intros; try discriminate; try congruence; try tauto;
      intuition congruence.
Qed.

(** X11. The host of the client [getApnsClient] returns is the one the
    request asks for: production when the request sets its production flag,
    else development when it sets its development flag, else the host of the
    deployment. The choice is written through to the package-level client. *)
Theorem getApnsClient_host cfg req (w w' : World E) c :
  getApnsClient E cfg req w = (Ok c, w') ->
  ClientHost c = request_host cfg req /\
  ApnsClient w' = Some c.
Proof.
  unfold getApnsClient, bind, request_host, deployment_host.
  destruct (InitAPNSClient E cfg (ApnsKeyPath req) (ApnsKeyBase64 req)
              (ApnsKeyType req) (ApnsPassword req) (ApnsKeyID req)
              (ApnsTeamID req) w) as [[c0 | e | msg] w0]; try discriminate.
  destruct c0 as [c0 |]; cbn; [| discriminate].
  intros H; inversion H; subst; clear H.
  split; [| reflexivity].
  destruct (ReqProduction req); [reflexivity |].
  destruct (Development_ req); [reflexivity |].
  destruct (IosProduction (Ios cfg)); reflexivity.
Qed.

Lemma list_ascii_of_string_app s t :
  list_ascii_of_string (s ++ t)
  = (list_ascii_of_string s ++ list_ascii_of_string t)%list.
Proof. induction s as [| c s IH]; cbn; congruence. Qed.

Lemma string_of_list_ascii_append l l' :
  string_of_list_ascii (l ++ l')
  = string_of_list_ascii l ++ string_of_list_ascii l'.
Proof. induction l as [| c l IH]; cbn; congruence. Qed.

Lemma append_String a c s :
  (a ++ String c "") ++ s = a ++ String c s.
Proof. induction a as [| c0 a IH]; cbn; [reflexivity | now rewrite IH]. Qed.

Lemma append_empty s : s ++ "" = s.
Proof. induction s as [| c s IH]; cbn; congruence. Qed.

Lemma ext_scan_plain l : forall rest suffix,
  forallb plain_char l = true ->
  ext_scan (l ++ "."%char :: rest) suffix
  = String "."%char (string_of_list_ascii (rev l) ++ suffix).
Proof.
  induction l as [| c l IH]; intros rest suffix Hl; cbn [app ext_scan].
  - reflexivity.
  - cbn [forallb] in Hl. apply andb_true_iff in Hl. destruct Hl as [Hc Hl].
    unfold plain_char in Hc. apply andb_true_iff in Hc.
    destruct Hc as [Hd Hs]. apply negb_true_iff in Hd, Hs.
    rewrite Hs, Hd, IH by exact Hl.
    cbn [rev]. f_equal.
    rewrite string_of_list_ascii_append. cbn [string_of_list_ascii].
    now rewrite append_String.
Qed.

(** The extension of a path that ends in a dot and a name without dot or
    separator is that dot and name, whatever comes before. *)
Lemma filepath_Ext_suffix p e :
  plain_name e -> filepath_Ext (p ++ "." ++ e) = "." ++ e.
Proof.
  intros He. unfold filepath_Ext, plain_name in *.
  assert (Hl : list_ascii_of_string (p ++ "." ++ e)
               = (list_ascii_of_string p
                  ++ "."%char :: list_ascii_of_string e)%list).
  { rewrite list_ascii_of_string_app. reflexivity. }
  rewrite Hl, rev_app_distr. cbn [rev]. rewrite <- app_assoc. cbn [app].
  rewrite ext_scan_plain.
  - rewrite rev_involutive, string_of_list_ascii_of_string, append_empty.
    reflexivity.
  - rewrite forallb_forall in *. intros c Hc. apply He.
    now apply in_rev.
Qed.

Lemma or_default_suffix p e dflt :
  or_default (p ++ "." ++ e) dflt = p ++ "." ++ e.
Proof. unfold or_default. destruct p; reflexivity. Qed.

(** X12. The decoding routine of a key file is chosen by the last extension
    of its name alone, whatever directories and earlier dots the path has.
    With the provider enabled, a key path ending in [.p12] or [.pem] makes
    [InitAPNSClient] return an error exactly when the certificate decoder of
    that format fails on the file, and a key path ending in [.p8] exactly
    when the token key decoder fails or the resolved key id or team id is
    empty. *)
Theorem InitAPNSClient_key_file cfg p kb kt pw kid tid (w : World E) :
  Enabled (Ios cfg) = true ->
  ((exists e,
      fst (InitAPNSClient E cfg (p ++ ".p12") kb kt pw kid tid w) = Err e) <->
   exists e,
     FromP12File E (p ++ ".p12") (or_default pw (Password (Ios cfg)))
     = inr e) /\
  ((exists e,
      fst (InitAPNSClient E cfg (p ++ ".pem") kb kt pw kid tid w) = Err e) <->
   exists e,
     FromPemFile E (p ++ ".pem") (or_default pw (Password (Ios cfg)))
     = inr e) /\
  ((exists e,
      fst (InitAPNSClient E cfg (p ++ ".p8") kb kt pw kid tid w) = Err e) <->
   (exists e, AuthKeyFromFile E (p ++ ".p8") = inr e) \/
   or_default kid (KeyID (Ios cfg)) = "" \/
   or_default tid (TeamID (Ios cfg)) = "").
Proof.
  intros Hen.
  assert (Hne : forall e, p ++ "." ++ e <> "")
    by (intros e; destruct p; discriminate).
  pose proof (filepath_Ext_suffix p "p12" eq_refl) as H12.
  pose proof (filepath_Ext_suffix p "pem" eq_refl) as Hpem.
  pose proof (filepath_Ext_suffix p "p8" eq_refl) as Hp8.
  pose proof (Hne "p12") as N12. pose proof (Hne "pem") as Npem.
  pose proof (Hne "p8") as Np8.
  change (p ++ "." ++ "p12") with (p ++ ".p12") in *.
  change (p ++ "." ++ "pem") with (p ++ ".pem") in *.
  change (p ++ "." ++ "p8") with (p ++ ".p8") in *.
  change ("." ++ "p12") with ".p12" in *.
  change ("." ++ "pem") with ".pem" in *.
  change ("." ++ "p8") with ".p8" in *.
  split; [| split].
  - rewrite (InitAPNSClient_error_iff cfg (p ++ ".p12") kb kt pw kid tid w Hen).
    cbv zeta. rewrite (or_default_suffix p "p12").
    change (p ++ "." ++ "p12") with (p ++ ".p12").
    unfold bad_extension, bad_key_type, decoding_fails, missing_ids,
      token_style, key_extension.
    rewrite H12. clear - N12.
    split.
    + intros [H | [H | [H | H]]].
      * destruct H as [_ H]. exfalso. apply H. now left.
      * destruct H as [H _]. contradiction.
      * destruct H as [[_ [[_ H] | [[H _] | [H _]]]] | [H _]];
          [exact H | discriminate | discriminate | contradiction].
      * destruct H as [[[_ H] | [H _]] _]; [discriminate | contradiction].
    + intros H. right. right. left. left. split; [exact N12 |]. now left.
  - rewrite (InitAPNSClient_error_iff cfg (p ++ ".pem") kb kt pw kid tid w Hen).
    cbv zeta. rewrite (or_default_suffix p "pem").
    change (p ++ "." ++ "pem") with (p ++ ".pem").
    unfold bad_extension, bad_key_type, decoding_fails, missing_ids,
      token_style, key_extension.
    rewrite Hpem. clear - Npem.
    split.
    + intros [H | [H | [H | H]]].
      * destruct H as [_ H]. exfalso. apply H. right. now left.
      * destruct H as [H _]. contradiction.
      * destruct H as [[_ [[H _] | [[_ H] | [H _]]]] | [H _]];
          [discriminate | exact H | discriminate | contradiction].
      * destruct H as [[[_ H] | [H _]] _]; [discriminate | contradiction].
    + intros H. right. right. left. left. split; [exact Npem |].
      right. now left.
  - rewrite (InitAPNSClient_error_iff cfg (p ++ ".p8") kb kt pw kid tid w Hen).
    cbv zeta. rewrite (or_default_suffix p "p8").
    change (p ++ "." ++ "p8") with (p ++ ".p8").
    unfold bad_extension, bad_key_type, decoding_fails, missing_ids,
      token_style, key_extension.
    rewrite Hp8. clear - Np8.
    split.
    + intros [H | [H | [H | H]]].
      * destruct H as [_ H]. exfalso. apply H. right. now right.
      * destruct H as [H _]. contradiction.
      * destruct H as [[_ [[H _] | [[H _] | [_ H]]]] | [H _]];
          [discriminate | discriminate | now left | contradiction].
      * destruct H as [_ H]. now right.
    + intros [H | H].
      * right. right. left. left. split; [exact Np8 |]. right. now right.
      * right. right. right. split; [| exact H]. left. now split.
Qed.

End FactoryProperties.



(** * Properties of one round *)

Section RoundProperties.

Variable E : Externals.

(** A response with status 500 or more takes the failure branch. *)
Lemma retryable_failed res err :
  retryable_status res = true -> push_failed res err = true.
Proof.
  unfold retryable_status, push_failed, StatusInternalServerError, StatusOK.
  destruct res as [r |]; [| discriminate].
  intros H. apply Z.leb_le in H.
  replace (StatusCode r =? 200) with false
    by (symmetry; apply Z.eqb_neq; lia).
  apply orb_true_r.
Qed.


(** What one worker does to the world and to [newTokens]. *)
Lemma worker_effects req client n token (w w' : World E) nt nt' a :
  worker E req client n token (w, nt) = (w', nt', a) ->
  att_token a = token /\
  (att_res a, att_err a, provider w')
  = Push E (provider w) client (set_DeviceToken n token) /\
  nt' = (nt ++ if retryable_status (att_res a) then [token] else [])%list /\
  ApnsClient w' = ApnsClient w /\
  LogError w' = LogError w /\
  LogAccess w' = LogAccess w /\
  IosError w' = IosError w + (if failed a then 1 else 0) /\
  IosSuccess w' = IosSuccess w + (if push_sent (att_res a) then 1 else 0) /\
  RequestLog w'
  = (RequestLog w ++
     if failed a && Sync (Core (Cfg req))
     then [fst (fst (feedback_call E req a))] else [])%list /\
  FeedbackCalls w'
  = (FeedbackCalls w ++
     if failed a && negb (Sync (Core (Cfg req)))
        && nonempty (FeedbackURL (Core (Cfg req)))
     then [feedback_call E req a] else [])%list.
Proof.
  unfold worker, failed, feedback_call, failure_error.
  destruct (Push E (provider w) client (set_DeviceToken n token))
    as [[res err] p] eqn:HPush.
  destruct (push_failed res err) eqn:Hfail.
  - intros H; inversion H; subst; clear H. cbn [att_token att_res att_err].
    rewrite Hfail.
    destruct (Sync (Core (Cfg req)));
      destruct (nonempty (FeedbackURL (Core (Cfg req))));
      destruct (retryable_status res); destruct (push_sent res);
      cbn; rewrite ?app_nil_r, ?Z.add_0_r; repeat split; reflexivity.
  - intros H; inversion H; subst; clear H. cbn [att_token att_res att_err].
    rewrite Hfail.
    assert (Hnr : retryable_status res = false).
    { destruct (retryable_status res) eqn:Hr; [| reflexivity].
      apply (retryable_failed res err) in Hr. congruence. }
    rewrite Hnr.
    destruct (push_sent res);
      cbn; rewrite ?app_nil_r, ?Z.add_0_r; repeat split; reflexivity.
Qed.

(** C4 (as amended). A worker whose push got no provider response at all (a
    nil response and an error) counts one error, logs the failure with that
    error, counts no success, and leaves [newTokens] as it was: the token is
    not handed to the next round. *)
Theorem worker_no_response req client n token (w : World E) nt e p :
  Push E (provider w) client (set_DeviceToken n token) = (None, Some e, p) ->
  exists w' a,
    worker E req client n token (w, nt) = (w', nt, a) /\
    att_token a = token /\
    no_provider_response a /\
    IosError w' = IosError w + 1 /\
    IosSuccess w' = IosSuccess w /\
    PushLog w'
    = (PushLog w
       ++ [createLogPushEntry E (Cfg req) FailedPush token req (Some e)])%list.
Proof.
  intros HPush. unfold worker. rewrite HPush.
  cbn [push_failed orb retryable_status push_sent].
  do 2 eexists. split; [reflexivity |].
  unfold no_provider_response. cbn [att_token att_res att_err].
  destruct (Sync (Core (Cfg req)));
    [| destruct (nonempty (FeedbackURL (Core (Cfg req))))];
    cbn; repeat split; try congruence.
Qed.

(** What a round does: it attempts the tokens in order, hands on the tokens
    of the server-class failures, and leaves the package-level client. *)
Lemma dispatch_round req client n tokens : forall (w w' : World E) nt nt' atts,
  dispatch E req client n tokens (w, nt) = (w', nt', atts) ->
  map att_token atts = tokens /\
  nt' = (nt ++ retry_tokens atts)%list /\
  ApnsClient w' = ApnsClient w.
Proof.
  induction tokens as [| token rest IH]; intros w w' nt nt' atts; cbn -[worker].
  - intros H; inversion H; subst. rewrite app_nil_r. auto.
  - destruct (worker E req client n token (w, nt)) as [[w1 nt1] a] eqn:Hw.
    destruct (dispatch E req client n rest (w1, nt1))
      as [[w2 nt2] l] eqn:Hd.
    intros H; inversion H; subst; clear H.
    apply worker_effects in Hw.
    destruct Hw as (Htok & _ & Hnt & Hc & _).
    apply IH in Hd. destruct Hd as (Hmap & Hnt2 & Hc2).
    repeat split.
    + cbn. congruence.
    + subst nt1 nt'. unfold retry_tokens. cbn [filter].
      rewrite <- app_assoc. f_equal.
      destruct (retryable_status (att_res a)); cbn; congruence.
    + congruence.
Qed.

(** The request log and the feedback calls after a round. *)
Lemma dispatch_feedback req client n tokens : forall (w w' : World E) nt nt' atts,
  dispatch E req client n tokens (w, nt) = (w', nt', atts) ->
  Sync (Core (Cfg req)) = false ->
  RequestLog w' = RequestLog w /\
  FeedbackCalls w'
  = (FeedbackCalls w ++
     if nonempty (FeedbackURL (Core (Cfg req)))
     then map (feedback_call E req) (filter failed atts) else [])%list.
Proof.
  induction tokens as [| token rest IH]; intros w w' nt nt' atts; cbn -[worker].
  - intros H Hs; inversion H; subst. cbn.
    destruct (nonempty _); rewrite app_nil_r; auto.
  - destruct (worker E req client n token (w, nt)) as [[w1 nt1] a] eqn:Hw.
    destruct (dispatch E req client n rest (w1, nt1))
      as [[w2 nt2] l] eqn:Hd.
    intros H Hs; inversion H; subst; clear H.
    apply worker_effects in Hw.
    destruct Hw as (_ & _ & _ & _ & _ & _ & _ & _ & Hlog & Hfb).
    apply IH in Hd; [| assumption]. destruct Hd as (Hlog2 & Hfb2).
    rewrite Hs in Hlog, Hfb. rewrite andb_false_r in Hlog.
    rewrite app_nil_r in Hlog. cbn [negb] in Hfb. rewrite andb_true_r in Hfb.
    split; [congruence |].
    rewrite Hfb2, Hfb. cbn [filter].
    destruct (nonempty (FeedbackURL (Core (Cfg req)))).
    + rewrite andb_true_r. rewrite <- app_assoc. f_equal.
      destruct (failed a); reflexivity.
    + rewrite andb_false_r. rewrite !app_nil_r. reflexivity.
Qed.

End RoundProperties.

(** * Properties of the retry loop *)

Section TraceProperties.

(** Every round of a trace leaves exactly the tokens of its server-class
    failures. *)
Lemma loop_trace_newTokens rs : forall tokens rc mr,
  loop_trace tokens rc mr rs ->
  Forall (fun r => newTokens r = retry_tokens (attempts r)) rs.
Proof.
  induction rs as [| r rs IH]; intros tokens rc mr; cbn; [tauto |].
  intros (_ & Hnew & Hrest). constructor; [assumption |].
  destruct (nonempty_list (newTokens r) && (rc <? mr)).
  - eapply IH; eassumption.
  - subst rs. constructor.
Qed.

(** The first round dispatches the tokens of the request, every later round
    the tokens the round before it left. *)
Lemma loop_trace_chain rs : forall tokens rc mr,
  loop_trace tokens rc mr rs ->
  (forall r, nth_error rs 0 = Some r -> round_tokens r = tokens) /\
  (forall i r r', nth_error rs i = Some r -> nth_error rs (S i) = Some r' ->
                  round_tokens r' = newTokens r).
Proof.
  induction rs as [| r rs IH]; intros tokens rc mr; cbn; [tauto |].
  intros (Htok & Hnew & Hrest). split.
  - intros r0 H; inversion H; congruence.
  - intros i r1 r2 H1 H2.
    destruct (nonempty_list (newTokens r) && (rc <? mr)).
    + apply IH in Hrest. destruct Hrest as (Hfirst & Hnext).
      destruct i as [| i]; cbn in H1, H2.
      * inversion H1; subst. auto.
      * eauto.
    + subst rs. destruct i; discriminate.
Qed.








End TraceProperties.

Section LoopProperties.

Variable E : Externals.

(** A pass whose client resolution fails logs the error and returns, with
    no round added. *)
Lemma Retry_loop_unresolved n req rc mr (w w1 : World E) done e :
  getApnsClient E (Cfg req) req w = (Err e, w1) ->
  Retry_loop E (S n) req rc mr w done
  = Some {| outcome := Ok tt;
            final := LogError_Error E ("APN server error: " ++ e) w1;
            rounds := done |}.
Proof. intros H. cbn [Retry_loop]. rewrite H. reflexivity. Qed.

(** A pass whose client resolution panics ends the call there. *)
Lemma Retry_loop_panic n req rc mr (w w1 : World E) done msg :
  getApnsClient E (Cfg req) req w = (Panic msg, w1) ->
  Retry_loop E (S n) req rc mr w done
  = Some {| outcome := Panic msg; final := w1; rounds := done |}.
Proof. intros H. cbn [Retry_loop]. rewrite H. reflexivity. Qed.

(** Once the client resolves, the loop finishes within
    [maxRetry - retryCount + 1] passes; the rounds it adds form a trace, and
    outside synchronous mode it leaves the request log alone and starts the
    feedback calls of the failed attempts. *)
Lemma Retry_loop_resolved : forall n req rc mr (w w1 : World E) done c,
  getApnsClient E (Cfg req) req w = (Ok c, w1) ->
  (Z.to_nat (mr - rc) < n)%nat ->
  exists run new,
    Retry_loop E n req rc mr w done = Some run /\
    outcome run = Ok tt /\
    rounds run = (done ++ new)%list /\
    loop_trace (Tokens req) rc mr new /\
    (Sync (Core (Cfg req)) = false ->
     RequestLog (final run) = RequestLog w /\
     FeedbackCalls (final run)
     = (FeedbackCalls w ++
        if nonempty (FeedbackURL (Core (Cfg req)))
        then feedback_calls E req new else [])%list).
Proof.
  induction n as [| n IH]; intros req rc mr w w1 done c Hget Hfuel; [lia |].
  cbn [Retry_loop]. rewrite Hget.
  destruct (dispatch E req c
              (GetIOSNotification (mapstructure_Decode E) req)
              (Tokens req) (w1, [])) as [[w2 nt] atts] eqn:Hd.
  pose proof (dispatch_round E _ _ _ _ _ _ _ _ _ Hd) as (Htok & Hnt & Hcl).
  pose proof (dispatch_feedback E _ _ _ _ _ _ _ _ _ Hd) as Hfb.
  pose proof (getApnsClient_frame E (Cfg req) req w) as Hframe.
  rewrite Hget in Hframe. cbn [snd] in Hframe.
  destruct Hframe as (_ & _ & _ & Hrl & Hfc & _).
  cbn [app] in Hnt.
  set (r := {| attempts := atts; newTokens := nt |}).
  destruct (nonempty_list nt && (rc <? mr)) eqn:Hc.
  - assert (Hlt : rc < mr).
    { apply andb_true_iff in Hc. destruct Hc as [_ Hc].
      now apply Z.ltb_lt in Hc. }
    assert (Hw2 : ApnsClient w2 <> None).
    { rewrite Hcl. erewrite getApnsClient_Ok by eassumption. discriminate. }
    destruct (getApnsClient_again E (Cfg req) req w w1 w2 c nt Hget Hw2)
      as (c' & w3 & Hget').
    destruct (IH (set_Tokens req nt) (rc + 1) mr w2 w3 (done ++ [r])%list c')
      as (run & new & Hrun & Hout & Hrounds & Htrace & Hfeed);
      [exact Hget' | lia |].
    exists run, (r :: new). subst r.
    split; [exact Hrun |]. split; [exact Hout |].
    split; [rewrite Hrounds, <- app_assoc; reflexivity |].
    split.
    + unfold round_tokens. cbn [loop_trace attempts newTokens].
      rewrite Hc. repeat split; assumption.
    + intros Hs. destruct (Hfeed Hs) as [Hr Hf].
      destruct (Hfb Hs) as [Hr2 Hf2]. split; [congruence |].
      cbn [Cfg set_Tokens] in Hf. rewrite Hf, Hf2, Hfc.
      cbn [feedback_calls attempts newTokens].
      destruct (nonempty (FeedbackURL (Core (Cfg req)))).
      * rewrite <- app_assoc. reflexivity.
      * rewrite !app_nil_r. reflexivity.
  - exists {| outcome := Ok tt; final := w2; rounds := (done ++ [r])%list |},
      [r].
    subst r.
    split; [reflexivity |]. split; [reflexivity |].
    split; [reflexivity |]. split.
    + unfold round_tokens. cbn [loop_trace attempts newTokens].
      rewrite Hc. repeat split; assumption.
    + intros Hs. destruct (Hfb Hs) as [Hr2 Hf2]. cbn [final].
      split; [congruence |].
      rewrite Hf2, Hfc. cbn [feedback_calls attempts newTokens].
      rewrite app_nil_r. reflexivity.
Qed.

End LoopProperties.

(** * Properties of PushToIOS *)

Section PushToIOSProperties.

Variable E : Externals.

Lemma Retry_adjust_sync req :
  Retry (adjust_sync E req) = Retry req /\
  Tokens (adjust_sync E req) = Tokens req /\
  Ios (Cfg (adjust_sync E req)) = Ios (Cfg req) /\
  FeedbackURL (Core (Cfg (adjust_sync E req))) = FeedbackURL (Core (Cfg req)) /\
  Sync (Core (Cfg (adjust_sync E req)))
  = Sync (Core (Cfg req)) && IsLocalQueue E (Engine (Queue (Cfg req))).
Proof.
  unfold adjust_sync.
  destruct (Sync (Core (Cfg req))) eqn:Hs;
    destruct (IsLocalQueue E (Engine (Queue (Cfg req)))) eqn:Hq;
    cbn; rewrite ?Hs; repeat split; reflexivity.
Qed.

(** The ways a call of [PushToIOS] ends: the client resolution of the first
    pass returns an error or panics and no round runs, or it resolves and
    the rounds form a trace from the tokens of the request. *)
Lemma PushToIOS_cases req (w : World E) extra :
  let req' := adjust_sync E req in
  let w0 := LogAccess_Debug E "Start push notification for iOS" w in
  let maxRetry := effective_maxRetry req' in
  exists run,
    PushToIOS E (fuel_for maxRetry extra) req w = Some run /\
    ((exists e w1,
        getApnsClient E (Cfg req') req' w0 = (Err e, w1) /\
        run = {| outcome := Ok tt;
                 final := LogError_Error E ("APN server error: " ++ e) w1;
                 rounds := [] |}) \/
     (exists msg w1,
        getApnsClient E (Cfg req') req' w0 = (Panic msg, w1) /\
        run = {| outcome := Panic msg; final := w1; rounds := [] |}) \/
     (exists c w1,
        getApnsClient E (Cfg req') req' w0 = (Ok c, w1) /\
        outcome run = Ok tt /\
        loop_trace (Tokens req) 0 maxRetry (rounds run) /\
        (Sync (Core (Cfg req')) = false ->
         RequestLog (final run) = RequestLog w /\
         FeedbackCalls (final run)
         = (FeedbackCalls w ++
            if nonempty (FeedbackURL (Core (Cfg req')))
            then feedback_calls E req' (rounds run) else [])%list))).
Proof.
  intros req' w0 maxRetry. unfold PushToIOS. fold req' w0 maxRetry.
  destruct (getApnsClient E (Cfg req') req' w0) as [[c | e | msg] w1] eqn:Hget.
  - destruct (Retry_loop_resolved E (fuel_for maxRetry extra) req' 0 maxRetry
                w0 w1 [] c Hget) as (run & new & Hrun & Hout & Hr & Htr & Hfb).
    { unfold fuel_for. rewrite Z.sub_0_r. lia. }
    exists run. split; [exact Hrun |]. right. right.
    exists c, w1. cbn [app] in Hr. subst new.
    destruct (Retry_adjust_sync req) as (_ & Htok & _).
    fold req' in Htok. rewrite Htok in Htr.
    repeat split; try assumption; apply Hfb; assumption.
  - eexists. split.
    + unfold fuel_for. cbn [Nat.add]. apply Retry_loop_unresolved. exact Hget.
    + left. eauto.
  - eexists. split.
    + unfold fuel_for. cbn [Nat.add]. apply Retry_loop_panic. exact Hget.
    + right. left. eauto.
Qed.

(** The rounds of a call form a trace, or there is none. *)
Lemma PushToIOS_trace req (w : World E) extra :
  exists run,
    PushToIOS E (fuel_for (effective_maxRetry (adjust_sync E req)) extra) req w
    = Some run /\
    (rounds run = [] \/
     loop_trace (Tokens req) 0 (effective_maxRetry (adjust_sync E req))
       (rounds run)).
Proof.
  destruct (PushToIOS_cases req w extra) as (run & Hrun & Hcases).
  exists run. split; [exact Hrun |].
  destruct Hcases as [(e & w1 & _ & ->) | [(msg & w1 & _ & ->) | Hok]].
  - left. reflexivity.
  - left. reflexivity.
  - right. destruct Hok as (c & w1 & _ & _ & Htr & _). exact Htr.
Qed.



(** C3. The retry cap [PushToIOS] hands to its loop is the smaller of the
    retry of the request and the maximum of the deployment when the request
    asks for more than 0 retries, and the maximum of the deployment when it
    asks for 0: retry 0 against a maximum of 3 gives a cap of 3. *)
Theorem PushToIOS_effective_cap req :
  (forall fuel (w : World E),
     PushToIOS E fuel req w
     = Retry_loop E fuel (adjust_sync E req) 0
         (effective_maxRetry (adjust_sync E req))
         (LogAccess_Debug E "Start push notification for iOS" w) []) /\
  (0 < Retry req ->
   effective_maxRetry (adjust_sync E req)
   = Z.min (Retry req) (MaxRetry (Ios (Cfg req)))) /\
  (Retry req = 0 ->
   effective_maxRetry (adjust_sync E req) = MaxRetry (Ios (Cfg req))) /\
  (Retry req = 0 -> MaxRetry (Ios (Cfg req)) = 3 ->
   effective_maxRetry (adjust_sync E req) = 3).
Proof.
  split; [reflexivity |].
  destruct (Retry_adjust_sync req) as (Hr & _ & Hios & _).
  unfold effective_maxRetry. rewrite Hr, Hios.
  split; [| split].
  - intros Hpos.
    destruct (0 <? Retry req) eqn:H0; [| apply Z.ltb_ge in H0; lia].
    destruct (Retry req <? MaxRetry (Ios (Cfg req))) eqn:H1; cbn.
    + apply Z.ltb_lt in H1. lia.
    + apply Z.ltb_ge in H1. lia.
  - intros Hz. rewrite Hz. reflexivity.
  - intros Hz Hm. rewrite Hz. cbn. exact Hm.
Qed.




End PushToIOSProperties.

(** * The scenarios *)

(** Three tokens: A meets 503 and is retried until the cap of 2 retries is
    used up, B meets 400 and C succeeds, and neither is attempted again. *)
Example abc_scenario :
  exists run,
    PushToIOS abc_env 3 abc_req abc_world = Some run /\
    map round_tokens (rounds run) = [["A"; "B"; "C"]; ["A"]; ["A"]] /\
    map newTokens (rounds run) = [["A"]; ["A"]; ["A"]] /\
    IosSuccess (final run) = 1 /\
    IosError (final run) = 4.
Proof.
  exists (run_of abc_world (PushToIOS abc_env 3 abc_req abc_world)).
  vm_compute. repeat split.
Qed.


(** A worker of the silent provider: one error counted, nothing handed on. *)
Lemma worker_no_response_silent :
  Push silent_env (provider silent_world) demo_client
    (set_DeviceToken silent_notification "A")
  = (None, Some "connection reset", 1%nat) /\
  exists w' a,
    worker silent_env silent_req demo_client silent_notification "A"
      (silent_world, []) = (w', [], a) /\
    IosError w' = 1.
Proof.
  split; [reflexivity |].
  destruct (worker_no_response silent_env silent_req demo_client
              silent_notification "A" silent_world [] "connection reset"
              1%nat eq_refl)
    as (w' & a & Hw & _ & _ & Herr & _).
  exists w', a. split; [exact Hw | exact Herr].
Defined.

(** C4 (as stated) fails: against a provider that never answers, the only
    token is attempted once, counted as an error, and not retried, although
    the cap allows three retries. *)
Lemma no_response_is_not_retried :
  effective_maxRetry (adjust_sync silent_env silent_req) = 3 /\
  exists run,
    PushToIOS silent_env 5 silent_req silent_world = Some run /\
    rounds run
    = [{| attempts := [{| att_token := "A"; att_res := None;
                          att_err := Some "connection reset" |}];
          newTokens := [] |}] /\
    IosError (final run) = 1.
Proof.
  split; [reflexivity |].
  exists (run_of silent_world (PushToIOS silent_env 5 silent_req silent_world)).
  vm_compute. repeat split.
Qed.




(** The same three tokens in the synchronous deployment on a queue that is
    not local: four failed attempts, four feedback calls, each to the
    configured URL, and an empty request log. *)
Example sync_scenario :
  exists run,
    PushToIOS abc_env 3 sync_req abc_world = Some run /\
    RequestLog (final run) = [] /\
    map (fun call => (snd (fst (fst (fst call))), snd (fst call)))
      (FeedbackCalls (final run))
    = [("A", "http://hooks.internal/apns"); ("B", "http://hooks.internal/apns");
       ("A", "http://hooks.internal/apns"); ("A", "http://hooks.internal/apns")].
Proof.
  exists (run_of abc_world (PushToIOS abc_env 3 sync_req abc_world)).
  vm_compute. repeat split.
Qed.

(** A token listed twice is attempted twice: the first attempt succeeds and
    hands nothing on, the second meets 503 and hands the token on, so the
    next round attempts it once. *)
Example duplicate_token_scenario :
  exists run,
    PushToIOS flaky_env 2 twice_req flaky_world = Some run /\
    map round_tokens (rounds run) = [["A"; "A"]; ["A"]] /\
    map newTokens (rounds run) = [["A"]; ["A"]] /\
    IosSuccess (final run) = 1 /\
    IosError (final run) = 2.
Proof.
  exists (run_of flaky_world (PushToIOS flaky_env 2 twice_req flaky_world)).
  vm_compute. repeat split.
Qed.

(** * Further properties of the rounds and of PushToIOS *)

Section RoundExtras.

Variable E : Externals.

(** The counters, the logs and the origin of the attempts after a round. *)
Lemma dispatch_effects req client n tokens :
  forall (w w' : World E) nt nt' atts,
  dispatch E req client n tokens (w, nt) = (w', nt', atts) ->
  IosError w' = IosError w + Z.of_nat (List.length (filter failed atts)) /\
  IosSuccess w' = IosSuccess w + Z.of_nat (List.length (filter sent atts)) /\
  RequestLog w'
  = (RequestLog w ++
     if Sync (Core (Cfg req))
     then map (fun a => fst (fst (feedback_call E req a)))
            (filter failed atts)
     else [])%list /\
  FeedbackCalls w'
  = (FeedbackCalls w ++
     if negb (Sync (Core (Cfg req)))
        && nonempty (FeedbackURL (Core (Cfg req)))
     then map (feedback_call E req) (filter failed atts) else [])%list /\
  Forall (pushed E) atts.
Proof.
  induction tokens as [| token rest IH]; intros w w' nt nt' atts;
    cbn -[worker].
  - intros H; inversion H; subst. cbn.
    rewrite !Z.add_0_r.
    destruct (Sync (Core (Cfg req))); destruct (nonempty _); cbn;
      rewrite !app_nil_r; auto.
  - destruct (worker E req client n token (w, nt)) as [[w1 nt1] a] eqn:Hw.
    destruct (dispatch E req client n rest (w1, nt1))
      as [[w2 nt2] l] eqn:Hd.
    intros H; inversion H; subst; clear H.
    apply worker_effects in Hw.
    destruct Hw as (Htok & HPush & _ & _ & _ & _ & He & Hs & Hlog & Hfb).
    apply IH in Hd. destruct Hd as (He2 & Hs2 & Hlog2 & Hfb2 & Hall).
    cbn [filter]. unfold sent at 1.
    split; [| split; [| split; [| split]]].
    + rewrite He2, He. destruct (failed a); cbn [List.length]; lia.
    + rewrite Hs2, Hs. destruct (push_sent (att_res a));
        cbn [List.length]; lia.
    + rewrite Hlog2, Hlog.
      destruct (failed a); destruct (Sync (Core (Cfg req)));
        cbn [andb map]; rewrite <- ?app_assoc, ?app_nil_r; reflexivity.
    + rewrite Hfb2, Hfb.
      destruct (failed a); destruct (Sync (Core (Cfg req)));
        destruct (nonempty (FeedbackURL (Core (Cfg req))));
        cbn [andb negb map]; rewrite <- ?app_assoc, ?app_nil_r; reflexivity.
    + constructor; [| exact Hall].
      exists (provider w), client, (set_DeviceToken n token), (provider w1).
      split; [symmetry; exact HPush | cbn; congruence].
Qed.

(** What a finished loop did to the counters and the logs, in terms of the
    rounds it added. *)
Lemma Retry_loop_effects : forall fuel req rc mr (w : World E) done run,
  Retry_loop E fuel req rc mr w done = Some run ->
  exists new,
    rounds run = (done ++ new)%list /\
    IosError (final run) = IosError w + count_failed new /\
    IosSuccess (final run) = IosSuccess w + count_sent new /\
    RequestLog (final run)
    = (RequestLog w ++
       if Sync (Core (Cfg req)) then request_log_entries E req new
       else [])%list /\
    FeedbackCalls (final run)
    = (FeedbackCalls w ++
       if negb (Sync (Core (Cfg req)))
          && nonempty (FeedbackURL (Core (Cfg req)))
       then feedback_calls E req new else [])%list /\
    Forall (pushed E) (all_attempts new).
Proof.
  induction fuel as [| fuel IH]; intros req rc mr w done run; [discriminate |].
  cbn [Retry_loop].
  pose proof (getApnsClient_frame E (Cfg req) req w) as Hframe.
  destruct (getApnsClient E (Cfg req) req w) as [[c | e | msg] w1] eqn:Hget;
    cbn [snd] in Hframe;
    destruct Hframe as (_ & _ & _ & Hrl & Hfc & Hs & He).
  - destruct (dispatch E req c
                (GetIOSNotification (mapstructure_Decode E) req)
                (Tokens req) (w1, [])) as [[w2 nt] atts] eqn:Hd.
    apply dispatch_effects in Hd.
    destruct Hd as (He2 & Hs2 & Hlog2 & Hfb2 & Hall).
    set (r := {| attempts := atts; newTokens := nt |}).
    destruct (nonempty_list nt && (rc <? mr)).
    + intros Hrun. apply IH in Hrun.
      destruct Hrun as (new & Hr & He3 & Hs3 & Hlog3 & Hfb3 & Hall3).
      exists (r :: new). cbn [Cfg set_Tokens] in *.
      unfold count_failed, count_sent, request_log_entries, all_attempts in *.
      cbn [flat_map feedback_calls attempts newTokens r].
      rewrite !filter_app, !length_app, !Nat2Z.inj_add.
      split; [rewrite Hr, <- app_assoc; reflexivity |].
      split; [lia |]. split; [lia |].
      split; [| split].
      * rewrite Hlog3, Hlog2, Hrl.
        destruct (Sync (Core (Cfg req)));
          rewrite ?map_app, ?map_map, <- ?app_assoc, ?app_nil_r; reflexivity.
      * rewrite Hfb3, Hfb2, Hfc.
        destruct (negb (Sync (Core (Cfg req)))
                  && nonempty (FeedbackURL (Core (Cfg req))));
          rewrite <- ?app_assoc, ?app_nil_r; reflexivity.
      * apply Forall_app. split; assumption.
    + intros Hrun. inversion Hrun; subst; clear Hrun.
      exists [r]. cbn [rounds final].
      unfold count_failed, count_sent, request_log_entries, all_attempts.
      cbn [flat_map feedback_calls attempts newTokens r].
      rewrite !app_nil_r.
      split; [reflexivity |]. split; [lia |]. split; [lia |].
      split; [| split].
      * rewrite Hlog2, Hrl.
        destruct (Sync (Core (Cfg req))); rewrite ?map_map; reflexivity.
      * rewrite Hfb2, Hfc. reflexivity.
      * exact Hall.
  - intros Hrun. inversion Hrun; subst; clear Hrun.
    exists []. cbn. unfold count_failed, count_sent. cbn.
    rewrite !Z.add_0_r, !app_nil_r.
    destruct (Sync (Core (Cfg req))); destruct (nonempty _); cbn;
      rewrite ?app_nil_r; repeat split; auto.
  - intros Hrun. inversion Hrun; subst; clear Hrun.
    exists []. cbn. unfold count_failed, count_sent. cbn.
    rewrite !Z.add_0_r, !app_nil_r.
    destruct (Sync (Core (Cfg req))); destruct (nonempty _); cbn;
      rewrite ?app_nil_r; repeat split; auto.
Qed.

End RoundExtras.

Section PushToIOSExtras.

Variable E : Externals.

(** A call of [PushToIOS] finishes; its rounds form a trace unless there is
    none, and the counters and logs it leaves are those of its rounds. *)
Lemma PushToIOS_effects req (w : World E) extra :
  let req' := adjust_sync E req in
  exists run,
    PushToIOS E (fuel_for (effective_maxRetry req') extra) req w = Some run /\
    (rounds run = [] \/
     loop_trace (Tokens req) 0 (effective_maxRetry req') (rounds run)) /\
    IosError (final run) = IosError w + count_failed (rounds run) /\
    IosSuccess (final run) = IosSuccess w + count_sent (rounds run) /\
    RequestLog (final run)
    = (RequestLog w ++
       if Sync (Core (Cfg req'))
       then request_log_entries E req' (rounds run) else [])%list /\
    FeedbackCalls (final run)
    = (FeedbackCalls w ++
       if negb (Sync (Core (Cfg req')))
          && nonempty (FeedbackURL (Core (Cfg req')))
       then feedback_calls E req' (rounds run) else [])%list /\
    Forall (pushed E) (all_attempts (rounds run)).
Proof.
  intros req'.
  destruct (PushToIOS_trace E req w extra) as (run & Hrun & Htrace).
  exists run. split; [exact Hrun |]. split; [exact Htrace |].
  unfold PushToIOS in Hrun. apply Retry_loop_effects in Hrun.
  destruct Hrun as (new & Hr & He & Hs & Hlog & Hfb & Hall).
  cbn [app] in Hr. subst new. fold req' in Hlog, Hfb.
  cbn in He, Hs, Hlog, Hfb. auto.
Qed.

Lemma map_eq_nil_inv {A B} (f : A -> B) (l : list A) :
  map f l = [] -> l = [].
Proof. destruct l; [reflexivity | discriminate]. Qed.

Lemma filter_none {A} (f : A -> bool) (l : list A) :
  (forall a, In a l -> f a = false) -> filter f l = [].
Proof.
  induction l as [| a l IH]; intros H; cbn; [reflexivity |].
  rewrite (H a) by now left. apply IH. intros b Hb. apply H. now right.
Qed.

(** A trace has at most [max 0 (maxRetry - retryCount) + 1] rounds. *)
Lemma loop_trace_length_max rs : forall tokens rc mr,
  loop_trace tokens rc mr rs ->
  Z.of_nat (List.length rs) <= Z.max 0 (mr - rc) + 1.
Proof.
  induction rs as [| r rs IH]; intros tokens rc mr;
    cbn [loop_trace List.length]; [tauto |].
  intros (_ & _ & Hrest).
  destruct (nonempty_list (newTokens r) && (rc <? mr)) eqn:Hc.
  - apply andb_true_iff in Hc. destruct Hc as [_ Hlt].
    apply Z.ltb_lt in Hlt. apply IH in Hrest. lia.
  - subst rs. cbn. lia.
Qed.

(** A round that hands no token on is the last one of its trace. *)
Lemma loop_trace_single rs tokens rc mr r :
  loop_trace tokens rc mr rs ->
  nth_error rs 0 = Some r -> newTokens r = [] -> rs = [r].
Proof.
  destruct rs as [| r0 rs]; cbn; [discriminate |].
  intros (_ & _ & Hrest) Hr Hnil. inversion Hr; subst r0.
  rewrite Hnil in Hrest. cbn in Hrest. now subst rs.
Qed.



(** X15. Only server-class responses cause another round: against a
    provider that never answers with a status of 500 or more, [PushToIOS]
    runs at most one round, whatever the retry cap, and that round hands no
    token on. *)
Theorem PushToIOS_no_server_failure req (w : World E) extra :
  (forall st client n,
     retryable_status (fst (fst (Push E st client n))) = false) ->
  exists run,
    PushToIOS E (fuel_for (effective_maxRetry (adjust_sync E req)) extra) req w
    = Some run /\
    (List.length (rounds run) <= 1)%nat /\
    forall r, In r (rounds run) -> newTokens r = [].
Proof.
  intros Hnever.
  destruct (PushToIOS_effects req w extra)
    as (run & Hrun & Htrace & _ & _ & _ & _ & Hall).
  exists run. split; [exact Hrun |].
  destruct Htrace as [Hnil | Htr].
  - rewrite Hnil. split; [cbn; lia | intros r []].
  - destruct (rounds run) as [| r rs] eqn:Hrs; [destruct Htr |].
    assert (Hr : newTokens r = []).
    { pose proof (loop_trace_newTokens _ _ _ _ Htr) as Hnew.
      inversion Hnew as [| ? ? Hr0 _]; subst. rewrite Hr0.
      unfold retry_tokens.
      rewrite filter_none; [reflexivity |].
      intros a Ha.
      unfold all_attempts in Hall. cbn [flat_map] in Hall.
      apply Forall_app in Hall. destruct Hall as [Hall _].
      rewrite Forall_forall in Hall.
      destruct (Hall a Ha) as (st & c & n & st' & HP & _).
      specialize (Hnever st c n). rewrite HP in Hnever. exact Hnever. }
    pose proof (loop_trace_single _ _ _ _ r Htr eq_refl Hr) as Hone.
    inversion Hone; subst.
    split; [cbn; lia |].
    intros r0 [<- | []]. exact Hr.
Qed.


(** X17. A request can lower the retry cap but not raise it: the cap of the
    loop never exceeds the maximum of the deployment, it is that maximum for
    every retry of 0 or less and for every retry at or above it, and
    [PushToIOS] runs at most that maximum plus one rounds (one round when the
    maximum is negative). *)
Theorem PushToIOS_cap_of_deployment req (w : World E) extra :
  effective_maxRetry (adjust_sync E req) <= MaxRetry (Ios (Cfg req)) /\
  (Retry req <= 0 \/ MaxRetry (Ios (Cfg req)) <= Retry req ->
   effective_maxRetry (adjust_sync E req) = MaxRetry (Ios (Cfg req))) /\
  exists run,
    PushToIOS E (fuel_for (effective_maxRetry (adjust_sync E req)) extra) req w
    = Some run /\
    Z.of_nat (List.length (rounds run))
    <= Z.max 0 (MaxRetry (Ios (Cfg req))) + 1.
Proof.
  destruct (Retry_adjust_sync E req) as (Hr & _ & Hios & _).
  assert (Hle : effective_maxRetry (adjust_sync E req)
                <= MaxRetry (Ios (Cfg req))).
  { unfold effective_maxRetry. rewrite Hr, Hios.
    destruct (0 <? Retry req); cbn; [| lia].
    destruct (Retry req <? MaxRetry (Ios (Cfg req))) eqn:H1; [| lia].
    apply Z.ltb_lt in H1. lia. }
  split; [exact Hle |]. split.
  - unfold effective_maxRetry. rewrite Hr, Hios. intros [H | H].
    + destruct (0 <? Retry req) eqn:H0; [| reflexivity].
      apply Z.ltb_lt in H0. lia.
    + destruct (Retry req <? MaxRetry (Ios (Cfg req))) eqn:H1.
      * apply Z.ltb_lt in H1. lia.
      * now rewrite andb_false_r.
  - destruct (PushToIOS_trace E req w extra) as (run & Hrun & Htrace).
    exists run. split; [exact Hrun |].
    destruct Htrace as [Hnil | Htr].
    + rewrite Hnil. cbn. lia.
    + apply loop_trace_length_max in Htr. lia.
Qed.

(** X18. A request without tokens still resolves the client and runs one
    round, with no attempt in it: nothing is retried and no counter, request
    log entry or feedback call is added. *)
Theorem PushToIOS_no_tokens req (w : World E) extra :
  Tokens req = [] ->
  exists run,
    PushToIOS E (fuel_for (effective_maxRetry (adjust_sync E req)) extra) req w
    = Some run /\
    (List.length (rounds run) <= 1)%nat /\
    (forall r, In r (rounds run) -> attempts r = [] /\ newTokens r = []) /\
    IosError (final run) = IosError w /\
    IosSuccess (final run) = IosSuccess w /\
    RequestLog (final run) = RequestLog w /\
    FeedbackCalls (final run) = FeedbackCalls w.
Proof.
  intros Hempty.
  destruct (PushToIOS_effects req w extra)
    as (run & Hrun & Htrace & He & Hs & Hlog & Hfb & _).
  exists run. split; [exact Hrun |].
  assert (Hshape : rounds run = []
                   \/ rounds run = [{| attempts := []; newTokens := [] |}]).
  { destruct Htrace as [Hnil | Htr]; [now left | right].
    destruct (rounds run) as [| r rs] eqn:Hrs; [destruct Htr |].
    pose proof (loop_trace_chain _ _ _ _ Htr) as [Hfirst _].
    pose proof (loop_trace_newTokens _ _ _ _ Htr) as Hnew.
    inversion Hnew as [| ? ? Hr0 _]; subst.
    specialize (Hfirst r eq_refl). rewrite Hempty in Hfirst.
    apply map_eq_nil_inv in Hfirst.
    rewrite Hfirst in Hr0. cbn in Hr0.
    rewrite (loop_trace_single _ _ _ _ r Htr eq_refl Hr0).
    destruct r as [atts nt]. cbn in *. now subst. }
  destruct Hshape as [Hr | Hr]; rewrite Hr in *;
    unfold count_failed, count_sent, request_log_entries in *;
    cbn in He, Hs, Hlog, Hfb;
    rewrite ?Z.add_0_r in *.
  - split; [cbn; lia |]. split; [intros r [] |].
    destruct (Sync (Core (Cfg (adjust_sync E req))));
      destruct (nonempty (FeedbackURL (Core (Cfg (adjust_sync E req)))));
      cbn in Hlog, Hfb; rewrite ?app_nil_r in *; auto.
  - split; [cbn; lia |]. split.
    + intros r [<- | []]. auto.
    + destruct (Sync (Core (Cfg (adjust_sync E req))));
        destruct (nonempty (FeedbackURL (Core (Cfg (adjust_sync E req)))));
        cbn in Hlog, Hfb; rewrite ?app_nil_r in *; auto.
Qed.

(** X19. With the provider disabled nothing is built and nothing is
    refused: [getApnsClient] hands out the package-level client as it is
    cached, with the host the request asks for, and panics on the nil
    dereference when none is cached, so that [PushToIOS] panics before any
    push. *)
Theorem PushToIOS_disabled req :
  Enabled (Ios (Cfg req)) = false ->
  (forall w : World E,
     getApnsClient E (Cfg req) req w
     = match ApnsClient w with
       | Some c =>
           (Ok (set_Host c (request_host (Cfg req) req)),
            set_ApnsClient E
              (Some (set_Host c (request_host (Cfg req) req))) w)
       | None => (Panic nil_dereference, w)
       end) /\
  (forall (w : World E) fuel,
     ApnsClient w = None ->
     PushToIOS E (S fuel) req w
     = Some {| outcome := Panic nil_dereference;
               final := LogAccess_Debug E "Start push notification for iOS" w;
               rounds := [] |}).
Proof.
  intros Hen.
  assert (Hget : forall w : World E,
             getApnsClient E (Cfg req) req w
             = match ApnsClient w with
               | Some c =>
                   (Ok (set_Host c (request_host (Cfg req) req)),
                    set_ApnsClient E
                      (Some (set_Host c (request_host (Cfg req) req))) w)
               | None => (Panic nil_dereference, w)
               end).
  { intros w. unfold getApnsClient, InitAPNSClient. rewrite Hen.
    unfold bind, read, effect, ret, panic, request_host, deployment_host.
    destruct (ApnsClient w) as [c |]; [| reflexivity].
    destruct (ReqProduction req); [reflexivity |].
    destruct (Development_ req); [reflexivity |].
    destruct (IosProduction (Ios (Cfg req))); reflexivity. }
  split; [exact Hget |].
  intros w fuel Hnil.
  unfold PushToIOS. apply Retry_loop_panic.
  assert (Hsame : getApnsClient E (Cfg (adjust_sync E req)) (adjust_sync E req)
                  = getApnsClient E (Cfg req) req).
  { unfold adjust_sync.
    destruct (Sync (Core (Cfg req))
              && negb (IsLocalQueue E (Engine (Queue (Cfg req)))));
      reflexivity. }
  rewrite Hsame, Hget. cbn [ApnsClient LogAccess_Debug]. rewrite Hnil.
  reflexivity.
Qed.

End PushToIOSExtras.

(** * Properties of the status engine *)

Section StatusProperties.

Variable Storage_Init : Storage -> option error.

Lemma switch_engine_known conf :
  In (StatEngine conf) storage_engines ->
  exists s,
    switch_engine conf = Some s /\ driver_name (driver s) = StatEngine conf.
Proof.
  unfold storage_engines, switch_engine. cbn [In].
  intros [H | [H | [H | [H | [H | [H | []]]]]]]; rewrite <- H; cbn; eauto.
Qed.

Lemma switch_engine_unknown conf :
  ~ In (StatEngine conf) storage_engines -> switch_engine conf = None.
Proof.
  unfold storage_engines, switch_engine. cbn [In]. intros Hn.
  repeat match goal with
         | |- context [String.eqb ?a ?b] =>
             destruct (String.eqb a b) eqn:?;
             [ exfalso; apply Hn;
               match goal with
               | H : String.eqb _ _ = true |- _ =>
                   apply String.eqb_eq in H; rewrite H; tauto
               end | ]
         end.
  reflexivity.
Qed.

(** X20. An engine name outside the six of the [switch] makes
    [InitAppStatus] return the unknown-driver error and log it; the names are
    matched exactly, and neither [StatStorage] nor [Stats] is touched. *)
Theorem InitAppStatus_unknown_engine conf w :
  ~ In (StatEngine conf) storage_engines ->
  fst (InitAppStatus Storage_Init conf w) = Some unknown_driver /\
  StatStorage (snd (InitAppStatus Storage_Init conf w)) = StatStorage w /\
  Stats (snd (InitAppStatus Storage_Init conf w)) = Stats w /\
  StatusLogError (snd (InitAppStatus Storage_Init conf w))
  = (StatusLogError w ++ ["storage error: can't find storage driver"])%list.
Proof.
  intros Hn. unfold InitAppStatus.
  rewrite (switch_engine_unknown conf Hn). cbn. auto.
Qed.

(** X21. For one of the six engine names, [InitAppStatus] installs the
    backend of that name as [StatStorage] before it initialises it, and
    returns what the initialisation returns: when that fails, the error is
    returned and logged, the new backend stays installed and [Stats] is left
    as it was; when it succeeds, [Stats] is a fresh one. *)
Theorem InitAppStatus_known_engine conf w :
  In (StatEngine conf) storage_engines ->
  exists s,
    driver_name (driver s) = StatEngine conf /\
    StatStorage (snd (InitAppStatus Storage_Init conf w)) = Some s /\
    fst (InitAppStatus Storage_Init conf w) = Storage_Init s /\
    Stats (snd (InitAppStatus Storage_Init conf w))
    = match Storage_Init s with
      | Some _ => Stats w
      | None => Some NewStats
      end /\
    StatusLogError (snd (InitAppStatus Storage_Init conf w))
    = match Storage_Init s with
      | Some err => (StatusLogError w ++ [("storage error: " ++ err)%string])%list
      | None => StatusLogError w
      end.
Proof.
  intros Hin. destruct (switch_engine_known conf Hin) as (s & Hs & Hname).
  exists s. unfold InitAppStatus. rewrite Hs.
  destruct (Storage_Init s); cbn; auto.
Qed.

End StatusProperties.

(** * Further scenarios *)



(** A key file with an unknown extension is an error. *)
Lemma InitAPNSClient_errors_bad_key :
  Enabled (Ios (Cfg bad_key_req)) = true /\
  exists e,
    fst (InitAPNSClient abc_env (Cfg bad_key_req) "" "" "" "" "" "" abc_world)
    = Err e.
Proof.
  split; [reflexivity |].
  apply (InitAPNSClient_errors abc_env (Cfg bad_key_req) "" "" "" "" "" ""
           abc_world eq_refl).
  left. split; [discriminate |].
  intros [H | [H | H]]; discriminate H.
Defined.

(** Without key and proxy the factory hands out a development client with
    health checks. *)
Lemma InitAPNSClient_client_keyless :
  Enabled (Ios (Cfg abc_req)) = true /\
  exists c0,
    fst (InitAPNSClient abc_env (Cfg abc_req) "" "" "" "" "" "" abc_world)
    = Ok (Some c0) /\
    ClientHost c0 = HostDevelopment /\
    ClientTransport c0 = H2Transport 1 1.
Proof.
  split; [reflexivity |].
  destruct (InitAPNSClient_client abc_env (Cfg abc_req) "" "" "" "" "" ""
              abc_world
              (snd (InitAPNSClient abc_env (Cfg abc_req) "" "" "" "" "" ""
                      abc_world))
              (Some built_client) eq_refl eq_refl)
    as (c0 & Hc & _ & Hhost & Htr & _).
  exists c0. inversion Hc; subst c0. repeat split.
Defined.

(** The error of a bad key file leaves no client cached. *)
Lemma InitAPNSClient_error_keeps_client_bad_key :
  InitAPNSClient abc_env (Cfg bad_key_req) "" "" "" "" "" "" abc_world
  = (Err "wrong certificate key extension",
     snd (InitAPNSClient abc_env (Cfg bad_key_req) "" "" "" "" "" ""
            abc_world)) /\
  ApnsClient (snd (InitAPNSClient abc_env (Cfg bad_key_req) "" "" "" "" "" ""
                     abc_world)) = None.
Proof.
  split; [reflexivity |].
  exact (proj1 (InitAPNSClient_error_keeps_client abc_env (Cfg bad_key_req)
                  "" "" "" "" "" "" abc_world _
                  "wrong certificate key extension" eq_refl)).
Defined.

(** A request without flags on a development deployment gets the
    development host. *)
Lemma getApnsClient_host_abc :
  getApnsClient abc_env (Cfg abc_req) abc_req abc_world
  = (Ok built_client,
     snd (getApnsClient abc_env (Cfg abc_req) abc_req abc_world)) /\
  ClientHost built_client = request_host (Cfg abc_req) abc_req.
Proof.
  split; [reflexivity |].
  exact (proj1 (getApnsClient_host abc_env (Cfg abc_req) abc_req abc_world _
                  built_client eq_refl)).
Defined.

(** A disabled provider with nothing cached: the call panics. *)
Lemma PushToIOS_disabled_uncached :
  Enabled (Ios (Cfg disabled_req)) = false /\
  PushToIOS abc_env 1 disabled_req abc_world
  = Some {| outcome := Panic nil_dereference;
            final := LogAccess_Debug abc_env
                       "Start push notification for iOS" abc_world;
            rounds := [] |}.
Proof.
  split; [reflexivity |].
  exact (proj2 (PushToIOS_disabled abc_env disabled_req eq_refl)
           abc_world 0%nat eq_refl).
Defined.

(** A PEM key below a directory whose name ends in [.p12]. *)
Lemma InitAPNSClient_key_file_pem :
  Enabled (Ios (Cfg abc_req)) = true /\
  ((exists e,
      fst (InitAPNSClient abc_env (Cfg abc_req) ("certs.p12/dev" ++ ".pem")
             "" "" "" "" "" abc_world) = Err e) <->
   exists e,
     FromPemFile abc_env ("certs.p12/dev" ++ ".pem")
       (or_default "" (Password (Ios (Cfg abc_req)))) = inr e).
Proof.
  split; [reflexivity |].
  exact (proj1 (proj2 (InitAPNSClient_key_file abc_env (Cfg abc_req)
                         "certs.p12/dev" "" "" "" "" "" abc_world eq_refl))).
Defined.

(** A provider that rejects every token with 400: one round. *)
Lemma PushToIOS_no_server_failure_rejecting :
  (forall st client n,
     retryable_status (fst (fst (Push rejecting_env st client n))) = false) /\
  exists run,
    PushToIOS rejecting_env
      (fuel_for (effective_maxRetry (adjust_sync rejecting_env abc_req)) 0)
      abc_req rejecting_world = Some run /\
    (List.length (rounds run) <= 1)%nat.
Proof.
  assert (H : forall st client n,
             retryable_status (fst (fst (Push rejecting_env st client n)))
             = false) by (intros; reflexivity).
  split; [exact H |].
  destruct (PushToIOS_no_server_failure rejecting_env abc_req rejecting_world
              0 H) as (run & Hrun & Hlen & _).
  exists run. split; [exact Hrun | exact Hlen].
Defined.


(** A request without tokens counts nothing. *)
Lemma PushToIOS_no_tokens_abc :
  Tokens no_token_req = [] /\
  exists run,
    PushToIOS abc_env
      (fuel_for (effective_maxRetry (adjust_sync abc_env no_token_req)) 0)
      no_token_req abc_world = Some run /\
    IosError (final run) = 0 /\
    IosSuccess (final run) = 0.
Proof.
  split; [reflexivity |].
  destruct (PushToIOS_no_tokens abc_env no_token_req abc_world 0 eq_refl)
    as (run & Hrun & _ & _ & He & Hs & _).
  exists run. split; [exact Hrun |]. split; [exact He | exact Hs].
Defined.

(** The engine names are matched exactly: ["Memory"] is unknown. *)
Lemma InitAppStatus_unknown_engine_Memory :
  ~ In (StatEngine (status_conf "Memory")) storage_engines /\
  fst (InitAppStatus redis_down (status_conf "Memory") fresh_status)
  = Some unknown_driver /\
  StatStorage (snd (InitAppStatus redis_down (status_conf "Memory")
                      fresh_status)) = None.
Proof.
  assert (H : ~ In (StatEngine (status_conf "Memory")) storage_engines).
  { cbn. intros [H | [H | [H | [H | [H | [H | []]]]]]]; discriminate H. }
  split; [exact H |].
  destruct (InitAppStatus_unknown_engine redis_down (status_conf "Memory")
              fresh_status H) as (He & Hs & _).
  split; [exact He | exact Hs].
Defined.

(** A redis backend that cannot connect stays installed, without stats. *)
Lemma InitAppStatus_known_engine_redis :
  In (StatEngine (status_conf "redis")) storage_engines /\
  exists s,
    driver s = Redis /\
    StatStorage (snd (InitAppStatus redis_down (status_conf "redis")
                        fresh_status)) = Some s /\
    Stats (snd (InitAppStatus redis_down (status_conf "redis") fresh_status))
    = None.
Proof.
  assert (H : In (StatEngine (status_conf "redis")) storage_engines)
    by (cbn; tauto).
  split; [exact H |].
  destruct (InitAppStatus_known_engine redis_down (status_conf "redis")
              fresh_status H) as (s & Hname & Hst & _ & _ & _).
  exists s.
  cbn in Hst. inversion Hst; subst s. repeat split.
Defined.
